(** * Chat widget controller of [src/App.jsx]: message synchronisation,
      read tracking and optimistic sends.

    The React component [ChatApp] keeps its data in [useState] cells and one
    [useRef] cell.  Here these cells are the fields of a [State] record, and
    every handler of the component is a computation in a small state monad
    that also writes a trace of the effects the handler performs (requests
    sent through [ChatAPI], toasts, console output, scroll requests).

    Handlers that [await] a backend call receive the outcome of that call as
    an argument ([Result]).  A handler is given twice: as one computation,
    which is the handler with nothing running between its call and its
    answers, and as the pieces its [await]s separate ([sendStart],
    [sendResume], [uploadStart], ...), each of which runs on whatever state
    it finds.  Values read from the environment ([Date.now()],
    [URL.createObjectURL]) are arguments as well. *)

From Stdlib Require Import List ZArith QArith Bool Lia String Ascii.
From Stdlib Require Import DecimalString.
From Stdlib Require Floats.
Import PrimFloat.
Import ListNotations.

#[local] Open Scope Z_scope.

(* ================================================================== *)
(** ** Strings *)
(* ================================================================== *)

(** A JavaScript string is a sequence of UTF-16 code units. *)
Definition code_unit := N.
Definition js_string := list code_unit.

(** ASCII literal of the source as a JavaScript string. *)
Definition lit (s : string) : js_string :=
  map N_of_ascii (list_ascii_of_string s).

(** [!s] for a string [s]: only the empty string is falsy. *)
Definition str_falsy (s : js_string) : bool :=
  match s with
  | [] => true
  | _ :: _ => false
  end.

(** ECMAScript [WhiteSpace] and [LineTerminator] code points, the characters
    [String.prototype.trim] strips.  All of them lie in the basic plane, so
    each is one code unit. *)
Definition isWhiteSpace (c : code_unit) : bool :=
  (  N.eqb c 9      (* TAB  *)
  || N.eqb c 10     (* LF   *)
  || N.eqb c 11     (* VT   *)
  || N.eqb c 12     (* FF   *)
  || N.eqb c 13     (* CR   *)
  || N.eqb c 32     (* SP   *)
  || N.eqb c 160    (* NBSP *)
  || N.eqb c 5760   (* U+1680 *)
  || (N.leb 8192 c && N.leb c 8202)  (* U+2000 .. U+200A *)
  || N.eqb c 8232   (* U+2028 line separator *)
  || N.eqb c 8233   (* U+2029 paragraph separator *)
  || N.eqb c 8239   (* U+202F *)
  || N.eqb c 8287   (* U+205F *)
  || N.eqb c 12288  (* U+3000 *)
  || N.eqb c 65279  (* U+FEFF *))%bool.

Fixpoint dropWhile {A} (p : A -> bool) (l : list A) : list A :=
  match l with
  | [] => []
  | x :: r => if p x then dropWhile p r else l
  end.

Definition trimStart (s : js_string) : js_string := dropWhile isWhiteSpace s.
Definition trimEnd (s : js_string) : js_string :=
  rev (dropWhile isWhiteSpace (rev s)).

(** [s.trim()] *)
Definition trim (s : js_string) : js_string := trimEnd (trimStart s).

(** [name.match(/\.[^.]+$/)?.[0] || ''] : the leftmost position at which a
    dot is followed by one or more non-dot characters up to the end of the
    string; the empty string when there is no such position. *)
Definition isDot (c : code_unit) : bool := N.eqb c 46.

Fixpoint matchExt (s : js_string) : option js_string :=
  match s with
  | [] => None
  | c :: r =>
      if isDot c && negb (str_falsy r) && forallb (fun d => negb (isDot d)) r
      then Some s
      else matchExt r
  end.

Definition fileExt (name : js_string) : js_string :=
  match matchExt name with
  | Some e => e
  | None => []
  end.

(* ================================================================== *)
(** ** Data model *)
(* ================================================================== *)

(** A chat message as the component handles it.  [msgStatus] is the
    client-only delivery marker: [Some 1] pending, [Some 2] failed, [None]
    for [undefined].  [create_time] is in seconds; an optimistic message
    carries [Date.now() / 1000], kept here as an exact fraction. *)
Record Message := mkMessage {
  id          : Z;
  content     : js_string;
  image_url   : js_string;
  is_reply    : bool;
  is_view     : bool;
  create_time : Q;
  title       : option js_string;
  msgStatus   : option Z
}.

(** [{ ...m, msgStatus: s }] *)
Definition with_msgStatus (s : option Z) (m : Message) : Message :=
  mkMessage (id m) (content m) (image_url m) (is_reply m) (is_view m)
            (create_time m) (title m) s.

(** [{ ...m, image_url: u, msgStatus: s }] *)
Definition with_image_status (u : js_string) (s : option Z) (m : Message)
  : Message :=
  mkMessage (id m) (content m) u (is_reply m) (is_view m)
            (create_time m) (title m) s.

(** [{ ...g, is_reply: true, is_view: true }] *)
Definition as_greeting (g : Message) : Message :=
  mkMessage (id g) (content g) (image_url g) true true
            (create_time g) (title g) (msgStatus g).

Record Toast := mkToast { show : bool; message : js_string }.

Record File := mkFile { name : js_string; size : Z }.

(** The fields of the signature answer that [uploadToOSS] forwards. *)
Record Credentials := mkCredentials {
  key : js_string;
  access_key_id : js_string;
  policy : js_string;
  signature : js_string
}.

(** [const { upload_url, url, ...credentials } = await api.getOSSSignature(ext)] *)
Record OssSign := mkOssSign {
  upload_url : js_string;
  url : js_string;
  credentials : Credentials
}.

(** The history endpoint answers with an array of messages, or with an
    object whose [greeting] and [list] fields may be missing. *)
Inductive History :=
| HistArray  (msgs : list Message)
| HistObject (greeting : option (list Message)) (list : option (list Message)).

(** Outcome of an awaited call: the value, or the message of the error
    thrown. *)
Inductive Result (A : Type) :=
| Ok  (a : A)
| Err (msg : js_string).
Arguments Ok {A} a.
Arguments Err {A} msg.

(** Requests issued through [ChatAPI]. *)
Inductive Request :=
| ReqChatHistory (isGreeting : bool)
| ReqSendChat    (content imageUrl : js_string)
| ReqChatRead    (id : Z)
| ReqOssSign     (suffix : js_string)
| ReqUpload      (uploadUrl : js_string) (file : File) (cred : Credentials).

Inductive ScrollBehavior := Smooth | Auto.

(** Effects a handler performs besides writing the component state. *)
Inductive Event :=
| EvRequest (r : Request)
| EvToast (message : js_string)
| EvConsoleError (label : string) (msg : js_string)
| EvScroll (b : ScrollBehavior)
| EvCreateObjectURL (f : File) (u : js_string)
| EvRevokeObjectURL (u : js_string).

(** The [useState] cells of [ChatApp] that the handlers write, and the
    [lastUnreadIdRef] cell. *)
Record State := mkState {
  messages     : list Message;
  greetings    : list Message;
  inputValue   : js_string;
  sending      : bool;
  toast        : Toast;
  unreadCount  : nat;
  isFirstLoad  : bool;
  lastUnreadId : Z
}.

Definition initialState : State :=
  mkState [] [] [] false (mkToast false []) 0%nat true 0.

(* ================================================================== *)
(** ** The handler monad: state and effect trace *)
(* ================================================================== *)

Module Handler.

Definition M (A : Type) : Type := State -> A * State * list Event.

Definition ret {A} (a : A) : M A := fun st => (a, st, []).

Definition bind {A B} (m : M A) (k : A -> M B) : M B :=
  fun st =>
    let '(a, st1, t1) := m st in
    let '(b, st2, t2) := k a st1 in
    (b, st2, t1 ++ t2).

Definition gets {A} (f : State -> A) : M A := fun st => (f st, st, []).
Definition modify (f : State -> State) : M unit := fun st => (tt, f st, []).
Definition emit (e : Event) : M unit := fun st => (tt, st, [e]).

(** State and trace a handler leaves behind. *)
Definition exec {A} (m : M A) (st : State) : State := snd (fst (m st)).
Definition trace {A} (m : M A) (st : State) : list Event := snd (m st).

End Handler.
Import Handler.

Notation "x <- m ;; k" := (bind m (fun x => k))
  (at level 61, m at next level, right associativity).
Notation "m ;; k" := (bind m (fun _ => k))
  (at level 61, right associativity).

(** Setters of the state cells. *)
Definition setMessages (f : list Message -> list Message) : M unit :=
  modify (fun s => mkState (f (messages s)) (greetings s) (inputValue s)
            (sending s) (toast s) (unreadCount s) (isFirstLoad s)
            (lastUnreadId s)).
Definition setGreetings (g : list Message) : M unit :=
  modify (fun s => mkState (messages s) g (inputValue s)
            (sending s) (toast s) (unreadCount s) (isFirstLoad s)
            (lastUnreadId s)).
Definition setInputValue (v : js_string) : M unit :=
  modify (fun s => mkState (messages s) (greetings s) v
            (sending s) (toast s) (unreadCount s) (isFirstLoad s)
            (lastUnreadId s)).
Definition setSending (b : bool) : M unit :=
  modify (fun s => mkState (messages s) (greetings s) (inputValue s)
            b (toast s) (unreadCount s) (isFirstLoad s)
            (lastUnreadId s)).
Definition setToast (t : Toast) : M unit :=
  modify (fun s => mkState (messages s) (greetings s) (inputValue s)
            (sending s) t (unreadCount s) (isFirstLoad s)
            (lastUnreadId s)).
Definition setUnreadCount (n : nat) : M unit :=
  modify (fun s => mkState (messages s) (greetings s) (inputValue s)
            (sending s) (toast s) n (isFirstLoad s)
            (lastUnreadId s)).
Definition setIsFirstLoad (b : bool) : M unit :=
  modify (fun s => mkState (messages s) (greetings s) (inputValue s)
            (sending s) (toast s) (unreadCount s) b
            (lastUnreadId s)).
(** [lastUnreadIdRef.current = v] *)
Definition setLastUnreadId (v : Z) : M unit :=
  modify (fun s => mkState (messages s) (greetings s) (inputValue s)
            (sending s) (toast s) (unreadCount s) (isFirstLoad s)
            v).

(** Trace projections used by the statements. *)
Definition requests (t : list Event) : list Request :=
  flat_map (fun e => match e with EvRequest r => [r] | _ => [] end) t.
Definition toasts (t : list Event) : list js_string :=
  flat_map (fun e => match e with EvToast m => [m] | _ => [] end) t.

(* ================================================================== *)
(** ** Handlers of [ChatApp] *)
(* ================================================================== *)

Definition showToast (message : js_string) : M unit :=
  emit (EvToast message) ;;
  setToast (mkToast true message).

Definition scrollToBottom (behavior : ScrollBehavior) : M unit :=
  emit (EvScroll behavior).

(** *** processMessages *)

(** The locals of the [for] loop of [processMessages]. *)
Record Locals := mkLocals {
  processed  : list Message;
  unread     : nat;
  lastUnread : Z
}.

(** One iteration, at index [i] with [msg = msgs[i]]. *)
Definition processOne (i : nat) (msg : Message) (l : Locals) : Locals :=
  let processed' := msg :: processed l in           (* processed.unshift(msg) *)
  if negb (is_view msg) then
    let unread' := S (unread l) in                  (* unread++ *)
    if Nat.eqb i 0 && negb (is_reply msg)
    then mkLocals processed' unread' (id msg)       (* lastUnread = msg.id *)
    else mkLocals processed' unread' (lastUnread l)
  else mkLocals processed' (unread l) (lastUnread l).

(** The iterations from index [i] on, over the remaining entries. *)
Fixpoint processLoop (i : nat) (msgs : list Message) (l : Locals) : Locals :=
  match msgs with
  | [] => l
  | msg :: rest => processLoop (S i) rest (processOne i msg l)
  end.

(** [firstLoad] is the value of [isFirstLoad] the enclosing render
    captured. *)
Definition processMessages (firstLoad : bool) (msgs : list Message) : M unit :=
  let l := processLoop 0 msgs (mkLocals [] 0%nat 0) in
  setLastUnreadId (lastUnread l) ;;
  setMessages (fun _ => processed l) ;;
  setUnreadCount (unread l) ;;
  if firstLoad && Nat.eqb (unread l) 0
  then scrollToBottom Auto
  else ret tt.

(** *** loadMessages *)

(** [const { greeting = [], list = [] } = data] *)
Definition orEmpty (o : option (list Message)) : list Message :=
  match o with
  | Some l => l
  | None => []
  end.

(** [isFirstLoad] is read once and the request flag and [processMessages]
    both see that value, as in the closure.  The component calls
    [loadMessages] from the start-up effect and from the polling timer; the
    timer is installed by the render in which [loading] has become false,
    which comes after the only write to [isFirstLoad], so the value the
    closure captured is the value of the cell at the call.  [resp] is the
    outcome of [api.getChatHistory]. *)
Definition loadMessages (isInitial : bool) (resp : Result History) : M unit :=
  firstLoad <- gets isFirstLoad ;;
  emit (EvRequest (ReqChatHistory (negb firstLoad))) ;;
  match resp with
  | Ok data =>
      match data with
      | HistArray msgs => processMessages firstLoad msgs
      | HistObject g l =>
          let greeting := orEmpty g in
          let msgs := orEmpty l in
          (if negb (Nat.eqb (List.length greeting) 0) && isInitial
           then setGreetings (map as_greeting greeting)
           else ret tt) ;;
          processMessages firstLoad msgs
      end ;;
      if isInitial then setIsFirstLoad false else ret tt
  | Err e =>
      emit (EvConsoleError "Failed to load messages:" e)
  end.

(** *** markAsRead *)

(** [resp] is the outcome of [api.markAsRead(id)]; the request is issued only
    for a truthy [id]. *)
Definition markAsRead (id : Z) (resp : Result unit) : M unit :=
  if Z.eqb id 0 then ret tt
  else
    emit (EvRequest (ReqChatRead id)) ;;
    match resp with
    | Ok _ =>
        setUnreadCount 0%nat ;;
        setLastUnreadId 0
    | Err e =>
        emit (EvConsoleError "Failed to mark as read:" e)
    end.

(** *** handleSendMessage *)

(** [if (!content.trim() && !imageUrl) return;] *)
Definition sendGuard (content imageUrl : js_string) : bool :=
  str_falsy (trim content) && str_falsy imageUrl.

(** The optimistic message; [nowId] and [nowTime] are the two readings of
    [Date.now()]. *)
Definition tempMessage (content imageUrl : js_string) (nowId nowTime : Z)
  : Message :=
  mkMessage nowId (trim content) imageUrl false true
            (Qmake nowTime 1000) None (Some 1).

(** [prev.map(m => m.id === tempId ? f(m) : m)] *)
Definition updateById (tempId : Z) (f : Message -> Message)
  (prev : list Message) : list Message :=
  map (fun m => if Z.eqb (id m) tempId then f m else m) prev.

(** The handler with nothing running between its call and the answer;
    [resp] is the outcome of [api.sendMessage].  The two runs that the
    [await] separates are [sendStart] and [sendResume]. *)
Definition handleSendMessage (content imageUrl : js_string)
  (nowId nowTime : Z) (resp : Result unit) : M unit :=
  if sendGuard content imageUrl then ret tt
  else
    let temp := tempMessage content imageUrl nowId nowTime in
    setMessages (fun prev => prev ++ [temp]) ;;
    setInputValue [] ;;
    setSending true ;;
    scrollToBottom Smooth ;;
    emit (EvRequest (ReqSendChat (trim content) imageUrl)) ;;
    match resp with
    | Ok _ =>
        setMessages (updateById (id temp) (with_msgStatus None))
    | Err e =>
        setMessages (updateById (id temp) (with_msgStatus (Some 2))) ;;
        showToast e
    end ;;
    setSending false.

(** *** handleImageUpload *)

Definition MAX_SIZE : Z := 2 * 1024 * 1024.

(** What the environment answers during one upload: the object URL, the two
    clock readings for the optimistic message, the outcomes of the signature
    request and of the upload, and the readings and outcome of the nested
    [handleSendMessage('', url)]. *)
Record UploadEnv := mkUploadEnv {
  previewUrl   : js_string;
  nowId        : Z;
  nowTime      : Z;
  signResp     : Result OssSign;
  uploadResp   : Result unit;
  sendNowId    : Z;
  sendNowTime  : Z;
  sendResp     : Result unit
}.

(** The [catch] block of [handleImageUpload]. *)
Definition uploadFailed (tempId : Z) (e : js_string) : M unit :=
  setMessages (updateById tempId (with_msgStatus (Some 2))) ;;
  showToast e.

(** The handler with nothing running between its call and its answers; the
    runs that its [await]s separate are [uploadStart], [uploadAfterSign],
    [uploadAfterUpload] and [uploadAfterSend]. *)
Definition handleImageUpload (file : option File) (env : UploadEnv) : M unit :=
  match file with
  | None => ret tt
  | Some file =>
      if Z.ltb MAX_SIZE (size file)
      then showToast (lit "Image size must be less than 2MB")
      else
        emit (EvCreateObjectURL file (previewUrl env)) ;;
        let temp :=
          mkMessage (nowId env) [] (previewUrl env) false true
                    (Qmake (nowTime env) 1000) None (Some 1) in
        setMessages (fun prev => prev ++ [temp]) ;;
        scrollToBottom Smooth ;;
        (let ext := fileExt (name file) in
         emit (EvRequest (ReqOssSign ext)) ;;
         match signResp env with
         | Ok sig =>
             emit (EvRequest (ReqUpload (upload_url sig) file (credentials sig))) ;;
             match uploadResp env with
             | Ok _ =>
                 setMessages
                   (updateById (id temp)
                      (with_image_status (url sig) None)) ;;
                 handleSendMessage [] (url sig)
                   (sendNowId env) (sendNowTime env) (sendResp env)
             | Err e => uploadFailed (id temp) e
             end
         | Err e => uploadFailed (id temp) e
         end) ;;
        emit (EvRevokeObjectURL (previewUrl env))
  end.

(** *** The handlers as operations on the component *)

Inductive Op :=
| OpLoadMessages (isInitial : bool) (resp : Result History)
| OpMarkAsRead (id : Z) (resp : Result unit)
| OpSendMessage (content imageUrl : js_string) (nowId nowTime : Z)
                (resp : Result unit)
| OpImageUpload (file : option File) (env : UploadEnv).

Definition runOp (op : Op) : M unit :=
  match op with
  | OpLoadMessages isInitial resp => loadMessages isInitial resp
  | OpMarkAsRead id resp => markAsRead id resp
  | OpSendMessage c u n t resp => handleSendMessage c u n t resp
  | OpImageUpload f env => handleImageUpload f env
  end.

(** States the component can be in after a sequence of handler runs. *)
Inductive reachable : State -> Prop :=
| reach_init : reachable initialState
| reach_step st op : reachable st -> reachable (exec (runOp op) st).

(* ================================================================== *)
(** ** What the specification says, in its own words *)
(* ================================================================== *)

(** The low-water-mark as the specification describes it: the id of the
    first entry of the newest-first sequence that is unread and inbound from
    the agent ([is_reply = true]); zero when there is none. *)
Fixpoint spec_lowWaterMark (msgs : list Message) : Z :=
  match msgs with
  | [] => 0
  | m :: rest =>
      if negb (is_view m) && is_reply m then id m
      else spec_lowWaterMark rest
  end.

(** The greeting flag as the specification describes it: the negation of
    "an initial fetch has completed". *)
Definition spec_greetingFlag (initialFetchDone : bool) : bool :=
  negb initialFetchDone.

(* ================================================================== *)
(** ** Closed forms read off the code *)
(* ================================================================== *)

(** What the loop of [processMessages] leaves in [lastUnread]: only the entry
    at index 0 is looked at, and it is taken when it is unread and has
    [is_reply = false]. *)
Definition headUnreadOutbound (msgs : list Message) : Z :=
  match msgs with
  | [] => 0
  | m :: _ => if negb (is_view m) && negb (is_reply m) then id m else 0
  end.

Definition isUnread (m : Message) : bool := negb (is_view m).

Definition countUnread (msgs : list Message) : nat :=
  List.length (filter isUnread msgs).

(** Running a sequence of handlers. *)
Definition runOps (ops : list Op) (st : State) : State :=
  fold_left (fun s op => exec (runOp op) s) ops st.

(** A run of [loadMessages(true)] whose request succeeded: the only place
    where [setIsFirstLoad(false)] is reached. *)
Definition completesInitialFetch (op : Op) : bool :=
  match op with
  | OpLoadMessages true (Ok _) => true
  | _ => false
  end.

Definition initialFetchCompleted (ops : list Op) : bool :=
  existsb completesInitialFetch ops.

(** The unread-tracking invariant. *)
Definition unread_inv (st : State) : Prop :=
  lastUnreadId st <> 0 -> (0 < unreadCount st)%nat.

(* ================================================================== *)
(** ** Sample inputs and auxiliary predicates *)
(* ================================================================== *)

(** The two-entry history of the specification's scenario, newest first. *)
Definition scenarioMsg (i : Z) (view reply : bool) : Message :=
  mkMessage i [] [] reply view 0%Q None None.

Definition scenarioHistory : list Message :=
  [ scenarioMsg 5 false true; scenarioMsg 4 true false ].

(** The unread-tracking cells and [isFirstLoad] are equal in two states. *)
Definition sameTracking (st st' : State) : Prop :=
  unreadCount st' = unreadCount st /\
  lastUnreadId st' = lastUnreadId st /\
  isFirstLoad st' = isFirstLoad st.

(** A state with three unread messages and low-water-mark 5. *)
Definition unreadState : State :=
  mkState [] [] [] false (mkToast false []) 3%nat false 5.


(** A list holding one confirmed message whose id is 1000. *)
Definition earlierMessage : Message :=
  mkMessage 1000 (lit "first") [] false true (Qmake 1 1) None None.

Definition oneMessageState : State :=
  mkState [earlierMessage] [] [] false (mkToast false []) 0%nat false 0.

(** A 3 MiB image and an environment in which every call would succeed. *)
Definition bigFile : File := mkFile (lit "photo.png") (3 * 1024 * 1024).

Definition okEnv : UploadEnv :=
  mkUploadEnv (lit "blob:1") 2000 2000
    (Ok (mkOssSign (lit "https://oss/up") (lit "https://oss/photo.png")
           (mkCredentials (lit "k") (lit "a") (lit "p") (lit "s"))))
    (Ok tt) 2001 2001 (Ok tt).

(* ================================================================== *)
(** ** ChatAPI: the transport *)
(* ================================================================== *)

Definition API_BASE_URL : js_string := lit "https://chatapi.easepesa.com/api".

Fixpoint str_eqb (a b : js_string) : bool :=
  match a, b with
  | [], [] => true
  | x :: a', y :: b' => N.eqb x y && str_eqb a' b'
  | _, _ => false
  end.

(** A plain object with string values: its keys, in insertion order. *)
Definition Obj := list (js_string * js_string).

Fixpoint objGet (k : js_string) (o : Obj) : option js_string :=
  match o with
  | [] => None
  | (k', v) :: r => if str_eqb k' k then Some v else objGet k r
  end.

(** [o[k] = v]: an existing key keeps its place and takes the new value, a
    new key goes last. *)
Fixpoint objSet (k v : js_string) (o : Obj) : Obj :=
  match o with
  | [] => [(k, v)]
  | (k', v') :: r =>
      if str_eqb k' k then (k', v) :: r else (k', v') :: objSet k v r
  end.

(** [{ ...base, ...extra }] *)
Definition objSpread (base extra : Obj) : Obj :=
  fold_left (fun o kv => objSet (fst kv) (snd kv) o) extra base.

(** The singleton [api]: the two fields of [ChatAPI]. *)
Record ApiState := mkApi { token : js_string; apiKey : js_string }.

(** Values the request bodies carry. *)
Inductive Field :=
| FStr (s : js_string)
| FNum (z : Z)
| FFile (f : File).

(** A body is [JSON.stringify] of an object literal, or a [FormData]; both
    are kept as their fields in order. *)
Inductive Body :=
| JsonBody (fields : list (js_string * Field))
| FormBody (fields : list (js_string * Field)).

(** The second argument of [request]; a missing [headers] is [None]. *)
Record Options := mkOptions {
  method  : option js_string;
  body    : option Body;
  headers : option Obj
}.

Definition noOptions : Options := mkOptions None None None.

(** What is handed to [fetch]. *)
Record HttpRequest := mkHttp {
  httpUrl     : js_string;
  httpMethod  : option js_string;
  httpHeaders : Obj;
  httpBody    : option Body
}.

(** The [headers] object [request] builds. *)
Definition requestHeaders (api : ApiState) (options : Options) : Obj :=
  objSpread
    [ (lit "Content-Type", lit "application/json");
      (lit "Authorization", token api);
      (lit "api-key", apiKey api) ]
    (match headers options with Some h => h | None => [] end).

(** The call [fetch(`${API_BASE_URL}${endpoint}`, { ...options, headers })]
    of [request]. *)
Definition requestFetch (api : ApiState) (endpoint : js_string)
  (options : Options) : HttpRequest :=
  mkHttp (API_BASE_URL ++ endpoint) (method options)
         (requestHeaders api options) (body options).

(** [`${b}`] for a boolean. *)
Definition boolToString (b : bool) : js_string :=
  if b then lit "true" else lit "false".

(** [`${n}`] for a non-negative integer. *)
Definition numToString (n : N) : js_string :=
  lit (NilZero.string_of_uint (N.to_uint n)).

(** The methods of [ChatAPI], as the [fetch] each one performs. *)
Definition login_fetch (api : ApiState) (phone tempToken : js_string)
  : HttpRequest :=
  requestFetch api (lit "/user/login")
    (mkOptions (Some (lit "POST"))
               (Some (JsonBody [(lit "phone", FStr phone)]))
               (Some [(lit "Authorization", tempToken)])).

Definition getChatHistory_fetch (api : ApiState) (isGreeting : bool)
  : HttpRequest :=
  requestFetch api (lit "/chat/chat-record?is_greeting=" ++ boolToString isGreeting)
    noOptions.

Definition getKeywords_fetch (api : ApiState) : HttpRequest :=
  requestFetch api (lit "/chat/chat-model") noOptions.

Definition sendMessage_fetch (api : ApiState) (content imageUrl : js_string)
  : HttpRequest :=
  requestFetch api (lit "/chat/send-chat")
    (mkOptions (Some (lit "POST"))
               (Some (JsonBody [(lit "content", FStr content);
                                (lit "image_url", FStr imageUrl)]))
               None).

Definition markAsRead_fetch (api : ApiState) (id : Z) : HttpRequest :=
  requestFetch api (lit "/chat/chat-read")
    (mkOptions (Some (lit "POST"))
               (Some (JsonBody [(lit "id", FNum id)]))
               None).

Definition getOSSSignature_fetch (api : ApiState) (suffix : js_string)
  : HttpRequest :=
  requestFetch api (lit "/oss/oss-sign-new?suffix=" ++ suffix) noOptions.

(** [uploadToOSS] calls [fetch] itself, not [request]. *)
Definition uploadToOSS_fetch (uploadUrl : js_string) (file : File)
  (credentials : Credentials) : HttpRequest :=
  mkHttp uploadUrl (Some (lit "POST")) []
    (Some (FormBody [ (lit "key", FStr (key credentials));
                      (lit "OSSAccessKeyId", FStr (access_key_id credentials));
                      (lit "policy", FStr (policy credentials));
                      (lit "Signature", FStr (signature credentials));
                      (lit "file", FFile file) ])).

(** The [fetch] behind each request of the handlers' traces. *)
Definition fetchOf (api : ApiState) (r : Request) : HttpRequest :=
  match r with
  | ReqChatHistory g => getChatHistory_fetch api g
  | ReqSendChat c u => sendMessage_fetch api c u
  | ReqChatRead i => markAsRead_fetch api i
  | ReqOssSign s => getOSSSignature_fetch api s
  | ReqUpload u f c => uploadToOSS_fetch u f c
  end.

(** The decoded envelope [{code, msg, data}]; [msg] may be missing. *)
Record Envelope (A : Type) := mkEnvelope {
  code : Z;
  msg  : option js_string;
  data : A
}.
Arguments mkEnvelope {A}.
Arguments code {A}.
Arguments msg {A}.
Arguments data {A}.

(** What [fetch] and [response.json()] give back: [fetch] rejects, or there
    is a response with its [ok] flag and [status], and a body that decodes
    to an envelope or makes [json()] reject. *)
Inductive FetchOutcome (A : Type) :=
| FetchRejected (m : js_string)
| FetchResponse (ok : bool) (status : N) (json : Result (Envelope A)).
Arguments FetchRejected {A}.
Arguments FetchResponse {A}.

(** [data.msg || 'Request failed'] *)
Definition msgOrDefault (m : option js_string) : js_string :=
  match m with
  | Some s => if str_falsy s then lit "Request failed" else s
  | None => lit "Request failed"
  end.

(** The part of [request] after [fetch]: what the caller's [await] gets. *)
Definition request {A} (o : FetchOutcome A) : Result A :=
  match o with
  | FetchRejected m => Err m
  | FetchResponse ok status json =>
      if negb ok
      then Err (lit "HTTP error! status: " ++ numToString status)
      else
        match json with
        | Err m => Err m
        | Ok env =>
            if negb (Z.eqb (code env) 200)
            then Err (msgOrDefault (msg env))
            else Ok (data env)
        end
  end.

(** The part of [uploadToOSS] after [fetch]. *)
Inductive UploadOutcome :=
| UploadRejected (m : js_string)
| UploadResponse (ok : bool).

Definition uploadToOSS (o : UploadOutcome) : Result unit :=
  match o with
  | UploadRejected m => Err m
  | UploadResponse ok => if negb ok then Err (lit "Upload failed") else Ok tt
  end.

(** The constructor reads [localStorage.getItem(TOKEN_KEY) || '']; the one
    entry of the storage that the class touches is [stored]. *)
Definition ChatAPI_new (stored : option js_string) : ApiState :=
  mkApi (match stored with
         | Some t => if str_falsy t then [] else t
         | None => []
         end) [].

Definition ChatAPI_setApiKey (k : js_string) (api : ApiState) : ApiState :=
  mkApi (token api) k.

(** [setToken] writes the field and the storage entry. *)
Definition ChatAPI_setToken (t : js_string) (api : ApiState)
  : ApiState * option js_string :=
  (mkApi t (apiKey api), Some t).

(* ================================================================== *)
(** ** Handlers of the input row, the chips, the toast and a message *)
(* ================================================================== *)

(** The fields of the keyboard event that [handleKeyPress] reads. *)
Record KeyboardEvent := mkKeyboardEvent {
  keyName  : js_string;
  shiftKey : bool
}.

(** [handleKeyPress]; the result tells whether [e.preventDefault()] was
    called. *)
Definition handleKeyPress (e : KeyboardEvent) (nowId nowTime : Z)
  (resp : Result unit) : M bool :=
  if str_eqb (keyName e) (lit "Enter") && negb (shiftKey e)
  then
    v <- gets inputValue ;;
    handleSendMessage v [] nowId nowTime resp ;;
    ret true
  else ret false.

(** [disabled={!inputValue.trim() || sending}] of the send button. *)
Definition sendDisabled (st : State) : bool :=
  str_falsy (trim (inputValue st)) || sending st.

(** A click on the send button; a disabled button delivers no click. *)
Definition clickSend (nowId nowTime : Z) (resp : Result unit) : M unit :=
  disabled <- gets sendDisabled ;;
  if disabled then ret tt
  else
    v <- gets inputValue ;;
    handleSendMessage v [] nowId nowTime resp.

(** [onSelect] of [KeywordChips]. *)
Definition selectKeyword (keyword : js_string) : M unit :=
  setInputValue keyword.


(** The observer callback of a rendered [Message] of the message list; the
    observer exists only for a message with [is_view] false. *)
Definition messageObserved (m : Message) (isIntersecting : bool)
  (resp : Result unit) : M unit :=
  if negb (is_view m) && isIntersecting
  then markAsRead (id m) resp
  else ret tt.

(* ================================================================== *)
(** ** Start-up and scrolling: the cells outside the chat state *)
(* ================================================================== *)

(** The chat cells together with [keywords], [loading] and
    [showScrollButton], the singleton [api], and the storage entry under
    [TOKEN_KEY]. *)
Record AppState := mkApp {
  chat             : State;
  keywords         : list js_string;
  loading          : bool;
  showScrollButton : bool;
  api              : ApiState;
  storedToken      : option js_string
}.

(** The component at mount, over a storage whose token entry is [stored]. *)
Definition initialApp (stored : option js_string) : AppState :=
  mkApp initialState [] true false (ChatAPI_new stored) stored.

(** Effects of the start-up code: those of the chat handlers, and the two
    requests only start-up sends. *)
Inductive AppEvent :=
| EvChat (e : Event)
| EvLogin (phone tempToken : js_string)
| EvGetKeywords.

Definition AM (A : Type) : Type := AppState -> A * AppState * list AppEvent.

Definition aret {A} (a : A) : AM A := fun s => (a, s, []).

Definition abind {A B} (m : AM A) (k : A -> AM B) : AM B :=
  fun s =>
    let '(a, s1, t1) := m s in
    let '(b, s2, t2) := k a s1 in
    (b, s2, t1 ++ t2).

Definition agets {A} (f : AppState -> A) : AM A := fun s => (f s, s, []).
Definition amodify (f : AppState -> AppState) : AM unit :=
  fun s => (tt, f s, []).
Definition aemit (e : AppEvent) : AM unit := fun s => (tt, s, [e]).

(** A chat handler run on the chat cells. *)
Definition lift {A} (m : M A) : AM A :=
  fun s =>
    let '(a, c, t) := m (chat s) in
    (a, mkApp c (keywords s) (loading s) (showScrollButton s) (api s)
              (storedToken s),
     map EvChat t).

Definition aexec {A} (m : AM A) (s : AppState) : AppState := snd (fst (m s)).
Definition atrace {A} (m : AM A) (s : AppState) : list AppEvent := snd (m s).

Notation "x <-- m ;;; k" := (abind m (fun x => k))
  (at level 61, m at next level, right associativity).
Notation "m ;;; k" := (abind m (fun _ => k))
  (at level 61, right associativity).

Definition setKeywords (k : list js_string) : AM unit :=
  amodify (fun s => mkApp (chat s) k (loading s) (showScrollButton s)
             (api s) (storedToken s)).
Definition setLoading (b : bool) : AM unit :=
  amodify (fun s => mkApp (chat s) (keywords s) b (showScrollButton s)
             (api s) (storedToken s)).
Definition setShowScrollButton (b : bool) : AM unit :=
  amodify (fun s => mkApp (chat s) (keywords s) (loading s) b
             (api s) (storedToken s)).
(** [api.setApiKey(k)] *)
Definition apiSetApiKey (k : js_string) : AM unit :=
  amodify (fun s => mkApp (chat s) (keywords s) (loading s)
             (showScrollButton s) (ChatAPI_setApiKey k (api s))
             (storedToken s)).
(** [api.setToken(t)] *)
Definition apiSetToken (t : js_string) : AM unit :=
  amodify (fun s => mkApp (chat s) (keywords s) (loading s)
             (showScrollButton s) (fst (ChatAPI_setToken t (api s)))
             (snd (ChatAPI_setToken t (api s)))).

(** Trace projections. *)
Definition chatEvents (t : list AppEvent) : list Event :=
  flat_map (fun e => match e with EvChat c => [c] | _ => [] end) t.

(** *** Keywords *)

Definition isNewline (c : code_unit) : bool := N.eqb c 10.

(** [s.split('\n')] *)
Fixpoint splitNewline (s : js_string) : list js_string :=
  match s with
  | [] => [[]]
  | c :: r =>
      if isNewline c then [] :: splitNewline r
      else
        match splitNewline r with
        | piece :: pieces => (c :: piece) :: pieces
        | [] => [[c]]
        end
  end.

(** [pieces.join('\n')] *)
Fixpoint joinNewline (pieces : list js_string) : js_string :=
  match pieces with
  | [] => []
  | [p] => p
  | p :: rest => p ++ 10%N :: joinNewline rest
  end.

Record KeywordModel := mkKeywordModel { key_world : js_string }.

(** [keywordData.reduce((acc, model) =>
      [...acc, ...model.key_world.split('\n')], [])] *)
Definition allKeywords (keywordData : list KeywordModel) : list js_string :=
  fold_left (fun acc model => acc ++ splitNewline (key_world model))
            keywordData [].

(** *** init *)

Record LoginData := mkLoginData { login_token : js_string }.

(** The outcomes of the three awaited calls of [init]; the keyword answer
    may be [null]. *)
Record InitEnv := mkInitEnv {
  loginOutcome   : Result LoginData;
  keywordOutcome : Result (option (list KeywordModel));
  historyOutcome : Result History
}.

(** The body of the start-up effect: [api.setApiKey(apiKey)], then
    [init()]. *)
Definition init (apiKeyProp phone tempToken : js_string) (env : InitEnv)
  : AM unit :=
  apiSetApiKey apiKeyProp ;;;
  aemit (EvLogin phone tempToken) ;;;
  match loginOutcome env with
  | Ok loginData =>
      apiSetToken (login_token loginData) ;;;
      aemit EvGetKeywords ;;;
      match keywordOutcome env with
      | Ok keywordData =>
          match keywordData with
          | Some (model :: models) =>
              setKeywords (allKeywords (model :: models))
          | _ => aret tt
          end ;;;
          lift (loadMessages true (historyOutcome env))
      | Err e => lift (showToast e)
      end
  | Err e => lift (showToast e)
  end ;;;
  setLoading false.

(** *** handleScroll *)

(** The three readings of [chatContainerRef.current].  They are JavaScript
    numbers, that is IEEE 754 binary64 values, and so are the kernel's
    floats; the subtraction and the comparisons below are the binary64
    ones. *)
Record ScrollMetrics := mkScrollMetrics {
  scrollTop    : PrimFloat.float;
  scrollHeight : PrimFloat.float;
  clientHeight : PrimFloat.float
}.

(** [scrollHeight - clientHeight - scrollTop] *)
Definition distanceFromBottom (c : ScrollMetrics) : PrimFloat.float :=
  PrimFloat.sub (PrimFloat.sub (scrollHeight c) (clientHeight c))
                (scrollTop c).

(** The part of [markAsRead] before its [await]: the request goes out for a
    truthy id; the result tells whether an answer is now awaited. *)
Definition markAsReadStart (id : Z) : M bool :=
  if Z.eqb id 0 then ret false
  else
    emit (EvRequest (ReqChatRead id)) ;;
    ret true.

(** The part of [markAsRead] after its [await], run when the answer
    arrives. *)
Definition markAsReadResume (resp : Result unit) : M unit :=
  match resp with
  | Ok _ =>
      setUnreadCount 0%nat ;;
      setLastUnreadId 0
  | Err e =>
      emit (EvConsoleError "Failed to mark as read:" e)
  end.

(** What one scroll event does at once: all of [handleScroll], with
    [markAsRead] up to its [await].  [container] is
    [chatContainerRef.current]; the result tells whether a read
    confirmation is now awaited. *)
Definition handleScrollStart (container : option ScrollMetrics) : AM bool :=
  match container with
  | None => aret false
  | Some c =>
      let d := distanceFromBottom c in
      setShowScrollButton (PrimFloat.ltb 80%float d) ;;;
      last <-- agets (fun s => lastUnreadId (chat s)) ;;;
      if PrimFloat.ltb d 80%float && negb (Z.eqb last 0)
      then lift (markAsReadStart last)
      else aret false
  end.

(** The scroll event together with the answer to its confirmation, when
    nothing else runs between the two; [resp] is that answer. *)
Definition handleScroll (container : option ScrollMetrics)
  (resp : Result unit) : AM unit :=
  match container with
  | None => aret tt
  | Some c =>
      let d := distanceFromBottom c in
      setShowScrollButton (PrimFloat.ltb 80%float d) ;;;
      last <-- agets (fun s => lastUnreadId (chat s)) ;;;
      if PrimFloat.ltb d 80%float && negb (Z.eqb last 0)
      then lift (markAsRead last resp)
      else aret tt
  end.

(* ================================================================== *)
(** ** Further trace projections and case names *)
(* ================================================================== *)

Definition scrolls (t : list Event) : list ScrollBehavior :=
  flat_map (fun e => match e with EvScroll b => [b] | _ => [] end) t.

(** The object-URL events of a trace, in order. *)
Definition urlEvents (t : list Event) : list Event :=
  filter (fun e => match e with
                   | EvCreateObjectURL _ _ | EvRevokeObjectURL _ => true
                   | _ => false
                   end) t.

(** The message sequence a history answer carries. *)
Definition historyList (data : History) : list Message :=
  match data with
  | HistArray l => l
  | HistObject _ l => orEmpty l
  end.

(** The error that sends [handleImageUpload] to its [catch] block, if any:
    the signature request's, else the upload's. *)
Definition uploadError (env : UploadEnv) : option js_string :=
  match signResp env with
  | Err e => Some e
  | Ok _ =>
      match uploadResp env with
      | Err e => Some e
      | Ok _ => None
      end
  end.

(** The optimistic message of [handleImageUpload]. *)
Definition previewMessage (env : UploadEnv) : Message :=
  mkMessage (nowId env) [] (previewUrl env) false true
            (Qmake (nowTime env) 1000) None (Some 1).

Definition enterKey : KeyboardEvent := mkKeyboardEvent (lit "Enter") false.

(** An environment in which the signature request fails. *)
Definition failingEnv : UploadEnv :=
  mkUploadEnv (lit "blob:1") 2000 2000 (Err (lit "no signature")) (Ok tt)
              2001 2001 (Ok tt).


(** No code unit of [s] is a dot. *)
Definition noDot (s : js_string) : bool :=
  forallb (fun d => negb (isDot d)) s.


(** The requests of a start-up trace, in order: the two start-up requests
    and the requests of the chat handlers. *)
Definition appRequests (t : list AppEvent) : list AppEvent :=
  filter (fun e => match e with
                   | EvLogin _ _ | EvGetKeywords | EvChat (EvRequest _) => true
                   | EvChat _ => false
                   end) t.

Definition hasNewline (s : js_string) : bool := existsb isNewline s.


(** The error that sends [init] to its [catch] block, if any: the login's,
    else the keyword request's.  A failing history fetch is caught inside
    [loadMessages] and never reaches it. *)
Definition startupError (env : InitEnv) : option js_string :=
  match loginOutcome env with
  | Err e => Some e
  | Ok _ =>
      match keywordOutcome env with
      | Err e => Some e
      | Ok _ => None
      end
  end.

(** An environment in which the login is refused, and one in which
    everything succeeds. *)
Definition refusedEnv : InitEnv :=
  mkInitEnv (Err (lit "bad token")) (Ok None) (Ok (HistArray [])).

Definition welcomeEnv : InitEnv :=
  mkInitEnv (Ok (mkLoginData (lit "session-1")))
            (Ok (Some [mkKeywordModel (lit "price" ++ 10%N :: lit "hours")]))
            (Ok (HistArray scenarioHistory)).

(** Readings 70 from the bottom, and readings whose exact distance is
    below 80 by 2^-60 while the binary64 subtraction gives 80. *)
Definition nearBottom : ScrollMetrics :=
  mkScrollMetrics 930%float 1500%float 500%float.

Definition roundedToEighty : ScrollMetrics :=
  mkScrollMetrics 0x1p-60%float 80%float 0%float.

(** The application once loaded, with three unread messages and
    low-water-mark 5. *)
Definition unreadApp : AppState :=
  mkApp unreadState [] false false (mkApi (lit "session-1") (lit "key")) None.

(* ================================================================== *)
(** ** The runs between the awaits *)
(* ================================================================== *)

(** An [async] handler runs in pieces: from its call to its first [await],
    and from each answer to the next [await] or to its end.  Between two
    pieces any other handler may run, a poll answer above all, which
    replaces the message list.  The pieces are given here; each later piece
    takes what the closure holds (the optimistic id) and runs on whatever
    state the answer finds. *)

(** *** handleSendMessage *)

(** Up to [await api.sendMessage(...)]: the result is the id of the
    optimistic message, or [None] when the guard returned. *)
Definition sendStart (content imageUrl : js_string) (nowId nowTime : Z)
  : M (option Z) :=
  if sendGuard content imageUrl then ret None
  else
    let temp := tempMessage content imageUrl nowId nowTime in
    setMessages (fun prev => prev ++ [temp]) ;;
    setInputValue [] ;;
    setSending true ;;
    scrollToBottom Smooth ;;
    emit (EvRequest (ReqSendChat (trim content) imageUrl)) ;;
    ret (Some (id temp)).

(** From the answer on: the rest of the [try] block or the [catch] block,
    then [finally].  [tempId] is [tempMessage.id] of the closure. *)
Definition sendResume (tempId : Z) (resp : Result unit) : M unit :=
  match resp with
  | Ok _ =>
      setMessages (updateById tempId (with_msgStatus None))
  | Err e =>
      setMessages (updateById tempId (with_msgStatus (Some 2))) ;;
      showToast e
  end ;;
  setSending false.


(** *** handleImageUpload *)

(** Up to [await api.getOSSSignature(ext)]: the result is the file and the
    id of the optimistic message, or [None] when there is no file or the
    file is rejected. *)
Definition uploadStart (file : option File) (env : UploadEnv)
  : M (option (File * Z)) :=
  match file with
  | None => ret None
  | Some file =>
      if Z.ltb MAX_SIZE (size file)
      then
        showToast (lit "Image size must be less than 2MB") ;;
        ret None
      else
        emit (EvCreateObjectURL file (previewUrl env)) ;;
        let temp := previewMessage env in
        setMessages (fun prev => prev ++ [temp]) ;;
        scrollToBottom Smooth ;;
        emit (EvRequest (ReqOssSign (fileExt (name file)))) ;;
        ret (Some (file, id temp))
  end.

(** The [catch] block followed by the [finally] block. *)
Definition uploadCatch (tempId : Z) (env : UploadEnv) (e : js_string)
  : M unit :=
  uploadFailed tempId e ;;
  emit (EvRevokeObjectURL (previewUrl env)).

(** From the signature answer to [await api.uploadToOSS(...)], or through
    [catch] and [finally]; the result is the signature when the upload is
    now awaited. *)
Definition uploadAfterSign (tempId : Z) (file : File) (env : UploadEnv)
  : M (option OssSign) :=
  match signResp env with
  | Ok sig =>
      emit (EvRequest (ReqUpload (upload_url sig) file (credentials sig))) ;;
      ret (Some sig)
  | Err e =>
      uploadCatch tempId env e ;;
      ret None
  end.

(** From the upload answer to the [await] inside
    [handleSendMessage('', url)], or to the end when that call returns at its
    guard, or through [catch] and [finally]; the result is the id of the
    nested optimistic message when the send is now awaited. *)
Definition uploadAfterUpload (tempId : Z) (sig : OssSign) (env : UploadEnv)
  : M (option Z) :=
  match uploadResp env with
  | Ok _ =>
      setMessages (updateById tempId (with_image_status (url sig) None)) ;;
      started <- sendStart [] (url sig) (sendNowId env) (sendNowTime env) ;;
      match started with
      | Some sendId => ret (Some sendId)
      | None =>
          emit (EvRevokeObjectURL (previewUrl env)) ;;
          ret None
      end
  | Err e =>
      uploadCatch tempId env e ;;
      ret None
  end.

(** From the send's answer on: the rest of the nested [handleSendMessage],
    then [finally]. *)
Definition uploadAfterSend (sendId : Z) (env : UploadEnv) : M unit :=
  sendResume sendId (sendResp env) ;;
  emit (EvRevokeObjectURL (previewUrl env)).

(** The four pieces with nothing in between. *)
Definition uploadPhases (file : option File) (env : UploadEnv) : M unit :=
  started <- uploadStart file env ;;
  match started with
  | None => ret tt
  | Some (f, tempId) =>
      signed <- uploadAfterSign tempId f env ;;
      match signed with
      | None => ret tt
      | Some sig =>
          awaited <- uploadAfterUpload tempId sig env ;;
          match awaited with
          | None => ret tt
          | Some sendId => uploadAfterSend sendId env
          end
      end
  end.

(** What a piece that ends in the [catch] block leaves, run on [mid]: the
    status written by id on the list it finds, the toast, no chat message
    sent, the object URL revoked last. *)
Definition endsInCatch (tempId : Z) (env : UploadEnv) (e : js_string)
  (mid st' : State) (t : list Event) : Prop :=
  messages st' = updateById tempId (with_msgStatus (Some 2)) (messages mid) /\
  toast st' = mkToast true e /\
  toasts t = [e] /\
  (forall c u, ~ In (ReqSendChat c u) (requests t)) /\
  last t (EvScroll Auto) = EvRevokeObjectURL (previewUrl env).

(** A list in which [m] is the one message with id [n]. *)
Definition onlyWithId (n : Z) (l1 : list Message) (m : Message)
  (l2 : list Message) : Prop :=
  id m = n /\ forall x, In x (l1 ++ l2) -> id x <> n.

(** No message of the list has id [n]. *)
Definition noneWithId (n : Z) (l : list Message) : Prop :=
  forall x, In x l -> id x <> n.

(** A state in which a poll answer has replaced the message list while a
    send is under way. *)
Definition polledState : State :=
  mkState [scenarioMsg 4 true false] [] [] true (mkToast false []) 0%nat
          false 0.

(* ================================================================== *)
(** ** The definitions on sample inputs *)
(* ================================================================== *)

Example trim_sample : trim (lit "  a b  ") = lit "a b".
Proof. reflexivity. Qed.

Example trim_line_terminators : trim [10; 9; 104; 105; 160; 8232]%N = lit "hi".
Proof. reflexivity. Qed.

Example fileExt_png : fileExt (lit "photo.png") = lit ".png".
Proof. reflexivity. Qed.

Example fileExt_last_dot : fileExt (lit "a.tar.gz") = lit ".gz".
Proof. reflexivity. Qed.

Example fileExt_none :
  fileExt (lit "photo") = [] /\ fileExt (lit "photo.") = [].
Proof. split; reflexivity. Qed.

(** The scenario of the specification: merged list and unread count. *)
Example scenario_merge :
  let st := exec (processMessages true scenarioHistory) initialState in
  map id (messages st) = [4; 5] /\ unreadCount st = 1%nat.
Proof. split; reflexivity. Qed.

(** A send that the server acknowledges: the optimistic message ends with
    its status cleared. *)
Example send_hello_acknowledged :
  let r := handleSendMessage (lit "hello") [] 2000 2000 (Ok tt) in
  map msgStatus (messages (exec r initialState)) = [None] /\
  map content (messages (exec r initialState)) = [lit "hello"] /\
  requests (trace r initialState) = [ReqSendChat (lit "hello") []].
Proof. repeat split; reflexivity. Qed.

(** An upload in which every call succeeds: the preview message is updated
    to the permanent URL, and the nested send appends a second optimistic
    message for the image. *)
Example upload_small_file :
  let r := handleImageUpload (Some (mkFile (lit "photo.png") 1024)) okEnv in
  map image_url (messages (exec r initialState))
    = [lit "https://oss/photo.png"; lit "https://oss/photo.png"] /\
  map msgStatus (messages (exec r initialState)) = [None; None] /\
  toasts (trace r initialState) = [] /\
  List.length (requests (trace r initialState)) = 3%nat.
Proof. repeat split; reflexivity. Qed.

(* ================================================================== *)
(** ** Strings: lemmas *)
(* ================================================================== *)

Lemma dropWhile_all {A} (p : A -> bool) (l : list A) :
  forallb p l = true -> dropWhile p l = [].
Proof.
  induction l as [|x r IH]; simpl; intro H; [reflexivity|].
  apply andb_true_iff in H as [Hx Hr].
  rewrite Hx. exact (IH Hr).
Qed.

Lemma trim_whitespace (s : js_string) :
  forallb isWhiteSpace s = true -> trim s = [].
Proof.
  intro H. unfold trim, trimStart, trimEnd.
  rewrite (dropWhile_all _ _ H). reflexivity.
Qed.

Lemma sendGuard_whitespace (s : js_string) :
  forallb isWhiteSpace s = true -> sendGuard s [] = true.
Proof.
  intro H. unfold sendGuard. rewrite (trim_whitespace _ H). reflexivity.
Qed.

(* ================================================================== *)
(** ** The monad: running a sequence *)
(* ================================================================== *)

Lemma exec_bind {A B} (m : M A) (k : A -> M B) (st : State) :
  exec (bind m k) st = exec (k (fst (fst (m st)))) (exec m st).
Proof.
  unfold exec, bind. destruct (m st) as [[a s1] t1]. simpl.
  destruct (k a s1) as [[b s2] t2]. reflexivity.
Qed.

Lemma trace_bind {A B} (m : M A) (k : A -> M B) (st : State) :
  trace (bind m k) st = trace m st ++ trace (k (fst (fst (m st)))) (exec m st).
Proof.
  unfold trace, exec, bind. destruct (m st) as [[a s1] t1]. simpl.
  destruct (k a s1) as [[b s2] t2]. reflexivity.
Qed.

Lemma requests_app (t1 t2 : list Event) :
  requests (t1 ++ t2) = requests t1 ++ requests t2.
Proof. unfold requests. apply flat_map_app. Qed.

(** Unfolds a handler down to the state it builds. *)
Ltac run_handler :=
  cbn [exec trace bind ret gets modify emit
       setMessages setGreetings setInputValue setSending setToast
       setUnreadCount setIsFirstLoad setLastUnreadId
       showToast scrollToBottom uploadFailed
       fst snd messages greetings inputValue sending toast unreadCount
       isFirstLoad lastUnreadId app].

(* ================================================================== *)
(** ** processMessages: the loop *)
(* ================================================================== *)

Section ProcessLoop.

Lemma processLoop_processed (msgs : list Message) :
  forall i l,
    processed (processLoop i msgs l) = rev msgs ++ processed l.
Proof.
  induction msgs as [|m rest IH]; intros i l; simpl; [reflexivity|].
  rewrite IH, <- app_assoc. simpl.
  unfold processOne.
  destruct (negb (is_view m)); [destruct (Nat.eqb i 0 && negb (is_reply m))|];
    reflexivity.
Qed.

Lemma processLoop_unread (msgs : list Message) :
  forall i l,
    unread (processLoop i msgs l) = (countUnread msgs + unread l)%nat.
Proof.
  unfold countUnread.
  induction msgs as [|m rest IH]; intros i l; simpl; [reflexivity|].
  rewrite IH. unfold processOne, isUnread.
  destruct (negb (is_view m)); simpl;
    [destruct (Nat.eqb i 0 && negb (is_reply m)); simpl; lia | reflexivity].
Qed.

(** Past index 0 the loop never writes [lastUnread]. *)
Lemma processLoop_lastUnread_later (msgs : list Message) :
  forall i l,
    lastUnread (processLoop (S i) msgs l) = lastUnread l.
Proof.
  induction msgs as [|m rest IH]; intros i l; simpl; [reflexivity|].
  rewrite IH. unfold processOne.
  destruct (negb (is_view m)); reflexivity.
Qed.

Lemma processLoop_lastUnread (msgs : list Message) :
  lastUnread (processLoop 0 msgs (mkLocals [] 0%nat 0))
  = headUnreadOutbound msgs.
Proof.
  destruct msgs as [|m rest]; simpl; [reflexivity|].
  rewrite processLoop_lastUnread_later.
  unfold processOne. simpl.
  destruct (negb (is_view m)); [destruct (negb (is_reply m))|]; reflexivity.
Qed.

(** [lastUnread] is written only in an iteration that also counts an
    unread entry. *)
Lemma headUnreadOutbound_counted (msgs : list Message) :
  headUnreadOutbound msgs <> 0 -> (0 < countUnread msgs)%nat.
Proof.
  destruct msgs as [|m rest]; simpl; [congruence|].
  unfold countUnread, isUnread. simpl.
  destruct (negb (is_view m)); simpl; [lia | congruence].
Qed.

End ProcessLoop.

(** The three cells [processMessages] writes. *)
Lemma processMessages_state (firstLoad : bool) (msgs : list Message)
  (st : State) :
  let st' := exec (processMessages firstLoad msgs) st in
  messages st' = rev msgs /\
  unreadCount st' = countUnread msgs /\
  lastUnreadId st' = headUnreadOutbound msgs /\
  greetings st' = greetings st /\
  isFirstLoad st' = isFirstLoad st.
Proof.
  unfold processMessages.
  pose proof (processLoop_processed msgs 0 (mkLocals [] 0%nat 0)) as Hp.
  pose proof (processLoop_unread msgs 0 (mkLocals [] 0%nat 0)) as Hu.
  pose proof (processLoop_lastUnread msgs) as Hl.
  simpl in Hp, Hu. rewrite app_nil_r in Hp. rewrite Nat.add_0_r in Hu.
  set (l := processLoop 0 msgs _) in *.
  destruct (firstLoad && Nat.eqb (unread l) 0); run_handler; auto.
Qed.

(* ================================================================== *)
(** ** Cells a handler leaves alone *)
(* ================================================================== *)

Lemma handleSendMessage_tracking (c u : js_string) (n t : Z)
  (resp : Result unit) (st : State) :
  sameTracking st (exec (handleSendMessage c u n t resp) st).
Proof.
  unfold handleSendMessage, sameTracking.
  destruct (sendGuard c u); [|destruct resp]; run_handler; auto.
Qed.

Lemma handleImageUpload_tracking (f : option File) (env : UploadEnv)
  (st : State) :
  sameTracking st (exec (handleImageUpload f env) st).
Proof.
  unfold handleImageUpload, handleSendMessage, sameTracking.
  destruct f as [f|]; [|run_handler; auto].
  destruct (Z.ltb MAX_SIZE (size f)); [run_handler; auto|].
  destruct (signResp env) as [sig|e]; [|run_handler; auto].
  destruct (uploadResp env) as [[]|e]; [|run_handler; auto].
  destruct (sendGuard [] (url sig)); [run_handler; auto|].
  destruct (sendResp env); run_handler; auto.
Qed.

Lemma markAsRead_isFirstLoad (i : Z) (resp : Result unit) (st : State) :
  isFirstLoad (exec (markAsRead i resp) st) = isFirstLoad st.
Proof.
  unfold markAsRead.
  destruct (Z.eqb i 0); [|destruct resp]; run_handler; reflexivity.
Qed.

(** What a fetch leaves in the unread-tracking cells and in [isFirstLoad]. *)
Lemma loadMessages_ok_state (isInitial : bool) (data : History) (st : State) :
  let msgs := match data with
              | HistArray l => l
              | HistObject _ l => orEmpty l
              end in
  let st' := exec (loadMessages isInitial (Ok data)) st in
  messages st' = rev msgs /\
  unreadCount st' = countUnread msgs /\
  lastUnreadId st' = headUnreadOutbound msgs /\
  isFirstLoad st' = isFirstLoad st && negb isInitial.
Proof.
  unfold loadMessages. rewrite !exec_bind.
  destruct data as [l|g l].
  - pose proof (processMessages_state (isFirstLoad st) l st) as H.
    cbv zeta in H.
    destruct isInitial; run_handler; rewrite ?andb_true_r, ?andb_false_r;
      tauto.
  - destruct (negb (Nat.eqb (List.length (orEmpty g)) 0) && isInitial);
      rewrite ?exec_bind; run_handler;
      match goal with
      | |- context [exec (processMessages ?f ?m) ?s] =>
          pose proof (processMessages_state f m s) as H
      end;
      cbv zeta in H; cbn [isFirstLoad] in H;
      destruct isInitial; run_handler; rewrite ?andb_true_r, ?andb_false_r;
      tauto.
Qed.

Lemma loadMessages_err_state (isInitial : bool) (e : js_string) (st : State) :
  exec (loadMessages isInitial (Err e)) st = st.
Proof.
  unfold loadMessages. run_handler. reflexivity.
Qed.

Lemma processMessages_requests (firstLoad : bool) (msgs : list Message)
  (st : State) :
  requests (trace (processMessages firstLoad msgs) st) = [].
Proof.
  unfold processMessages. cbv zeta.
  destruct (firstLoad && _); run_handler; reflexivity.
Qed.

(** The request a fetch sends carries [!isFirstLoad]. *)
Lemma loadMessages_requests (isInitial : bool) (resp : Result History)
  (st : State) :
  requests (trace (loadMessages isInitial resp) st)
  = [ReqChatHistory (negb (isFirstLoad st))].
Proof.
  unfold loadMessages.
  destruct resp as [[l|g l]|e]; rewrite !trace_bind, !requests_app;
    run_handler; rewrite ?processMessages_requests.
  - destruct isInitial; reflexivity.
  - destruct (negb _ && isInitial); destruct isInitial; reflexivity.
  - reflexivity.
Qed.

(** [isFirstLoad] is cleared by a completed initial fetch and by nothing
    else. *)
Lemma runOp_isFirstLoad (op : Op) (st : State) :
  isFirstLoad (exec (runOp op) st)
  = isFirstLoad st && negb (completesInitialFetch op).
Proof.
  destruct op as [isInitial resp|i resp|c u n t resp|f env]; simpl runOp.
  - destruct resp as [data|e].
    + destruct (loadMessages_ok_state isInitial data st) as (_ & _ & _ & H).
      rewrite H. destruct isInitial; reflexivity.
    + rewrite loadMessages_err_state.
      destruct isInitial; simpl; rewrite andb_true_r; reflexivity.
  - rewrite markAsRead_isFirstLoad. simpl. rewrite andb_true_r. reflexivity.
  - destruct (handleSendMessage_tracking c u n t resp st) as (_ & _ & H).
    rewrite H. simpl. rewrite andb_true_r. reflexivity.
  - destruct (handleImageUpload_tracking f env st) as (_ & _ & H).
    rewrite H. simpl. rewrite andb_true_r. reflexivity.
Qed.

Lemma runOps_isFirstLoad (ops : list Op) :
  forall st,
    isFirstLoad (runOps ops st)
    = isFirstLoad st && negb (initialFetchCompleted ops).
Proof.
  unfold runOps, initialFetchCompleted.
  induction ops as [|op ops IH]; intro st; simpl.
  - rewrite andb_true_r. reflexivity.
  - rewrite IH, runOp_isFirstLoad, negb_orb, andb_assoc. reflexivity.
Qed.

(* ================================================================== *)
(** ** Merge step *)
(* ================================================================== *)

(** C1, as stated, fails: on the scenario history the first unread inbound
    entry has id 5, but the merge step leaves the low-water-mark at 0,
    because the entry at index 0 has [is_reply = true]. *)
Lemma lowWaterMark_scenario_not_5 :
  spec_lowWaterMark scenarioHistory = 5 /\
  lastUnreadId (exec (processMessages true scenarioHistory) initialState) = 0 /\
  lastUnreadId (exec (processMessages true scenarioHistory) initialState)
    <> spec_lowWaterMark scenarioHistory.
Proof.
  repeat split; try reflexivity.
  vm_compute. discriminate.
Qed.

(** C1, amended: for every fetched newest-first sequence the merge step
    records the id of the entry at index 0 when that entry is unread
    ([is_view = false]) and has [is_reply = false], and records 0 in every
    other case; entries past index 0 never set it. *)
Theorem processMessages_lowWaterMark (firstLoad : bool) (msgs : list Message)
  (st : State) :
  lastUnreadId (exec (processMessages firstLoad msgs) st)
  = headUnreadOutbound msgs.
Proof.
  apply (processMessages_state firstLoad msgs st).
Qed.

(** C3: the merged display list is the reversal of the fetched sequence,
    whatever the local list held before; this holds for the merge step on its
    own and for a fetch that answers with either response shape. *)
Theorem processMessages_reverses (firstLoad isInitial : bool)
  (msgs : list Message) (g : option (list Message)) (st : State) :
  messages (exec (processMessages firstLoad msgs) st) = rev msgs /\
  messages (exec (loadMessages isInitial (Ok (HistArray msgs))) st)
    = rev msgs /\
  messages (exec (loadMessages isInitial (Ok (HistObject g (Some msgs)))) st)
    = rev msgs.
Proof.
  split; [apply (processMessages_state firstLoad msgs st)|].
  split.
  - apply (loadMessages_ok_state isInitial (HistArray msgs) st).
  - apply (loadMessages_ok_state isInitial (HistObject g (Some msgs)) st).
Qed.

(** C4: the unread count set by the merge step is the number of entries of
    the fetched batch whose [is_view] is false. *)
Theorem processMessages_unreadCount (firstLoad : bool) (msgs : list Message)
  (st : State) :
  unreadCount (exec (processMessages firstLoad msgs) st)
  = List.length (filter (fun m => negb (is_view m)) msgs).
Proof.
  apply (processMessages_state firstLoad msgs st).
Qed.

(* ================================================================== *)
(** ** The greeting flag *)
(* ================================================================== *)

(** C2, as stated, fails: the very first fetch of a session sends
    [is_greeting=false] where the claim has [true], and a fetch that follows
    a completed initial fetch sends [true] where the claim has [false]. *)
Lemma greetingFlag_not_negation :
  requests (trace (loadMessages true (Ok (HistArray []))) initialState)
    <> [ReqChatHistory (spec_greetingFlag false)] /\
  requests (trace (loadMessages false (Ok (HistArray [])))
              (runOps [OpLoadMessages true (Ok (HistArray []))] initialState))
    <> [ReqChatHistory (spec_greetingFlag true)].
Proof.
  split; vm_compute; discriminate.
Qed.

(** C2, amended: after any sequence of handler runs from the initial state,
    the [is_greeting] flag a fetch sends equals "an initial fetch has
    completed" itself, not its negation: it is false on every call made
    before the first successful initial fetch and true on every call after
    one. *)
Theorem loadMessages_greetingFlag (ops : list Op) (isInitial : bool)
  (resp : Result History) :
  requests (trace (loadMessages isInitial resp) (runOps ops initialState))
  = [ReqChatHistory (initialFetchCompleted ops)].
Proof.
  rewrite loadMessages_requests, runOps_isFirstLoad.
  simpl. rewrite negb_involutive. reflexivity.
Qed.

(* ================================================================== *)
(** ** Read confirmation *)
(* ================================================================== *)

Lemma markAsRead_zero (resp : Result unit) (st : State) :
  markAsRead 0 resp st = (tt, st, []).
Proof. reflexivity. Qed.

Lemma markAsRead_ok (i : Z) (u : unit) (st : State) :
  i <> 0 ->
  unreadCount (exec (markAsRead i (Ok u)) st) = 0%nat /\
  lastUnreadId (exec (markAsRead i (Ok u)) st) = 0.
Proof.
  intro Hi. unfold markAsRead.
  destruct (Z.eqb_spec i 0) as [E|_]; [contradiction|].
  run_handler. auto.
Qed.

Lemma markAsRead_err (i : Z) (e : js_string) (st : State) :
  exec (markAsRead i (Err e)) st = st /\
  toasts (trace (markAsRead i (Err e)) st) = [].
Proof.
  unfold markAsRead.
  destruct (Z.eqb i 0); run_handler; auto.
Qed.

(** The request is issued exactly for a truthy id. *)
Lemma markAsRead_issued (i : Z) (resp : Result unit) (st : State) :
  In (ReqChatRead i) (requests (trace (markAsRead i resp) st)) -> i <> 0.
Proof.
  unfold markAsRead.
  destruct (Z.eqb_spec i 0) as [E|N]; [|intros _; exact N].
  run_handler. simpl. tauto.
Qed.

(** C5: whenever the read-confirmation request for an id is issued, a
    success sets the unread count and the low-water-mark to zero, whatever
    the low-water-mark was; a failure leaves the whole state as it was and
    raises no toast. *)
Theorem markAsRead_outcome (i : Z) (resp : Result unit) (st : State)
  (Hreq : In (ReqChatRead i) (requests (trace (markAsRead i resp) st))) :
  match resp with
  | Ok _ =>
      unreadCount (exec (markAsRead i resp) st) = 0%nat /\
      lastUnreadId (exec (markAsRead i resp) st) = 0
  | Err _ =>
      exec (markAsRead i resp) st = st /\
      toasts (trace (markAsRead i resp) st) = []
  end.
Proof.
  apply markAsRead_issued in Hreq.
  destruct resp as [u|e].
  - apply markAsRead_ok; assumption.
  - apply markAsRead_err.
Qed.

Lemma markAsRead_outcome_witness :
  In (ReqChatRead 7)
     (requests (trace (markAsRead 7 (Ok tt)) unreadState)) /\
  unreadCount (exec (markAsRead 7 (Ok tt)) unreadState) = 0%nat /\
  lastUnreadId (exec (markAsRead 7 (Ok tt)) unreadState) = 0.
Proof.
  split.
  - simpl. left. reflexivity.
  - apply (markAsRead_outcome 7 (Ok tt) unreadState).
    simpl. left. reflexivity.
Defined.

(* ================================================================== *)
(** ** The unread-tracking invariant *)
(* ================================================================== *)

Lemma sameTracking_inv (st st' : State) :
  sameTracking st st' -> unread_inv st -> unread_inv st'.
Proof.
  unfold sameTracking, unread_inv. intros (Hu & Hl & _) H.
  rewrite Hu, Hl. exact H.
Qed.

Lemma loadMessages_inv (isInitial : bool) (resp : Result History)
  (st : State) :
  unread_inv st -> unread_inv (exec (loadMessages isInitial resp) st).
Proof.
  intro H. destruct resp as [data|e].
  - destruct (loadMessages_ok_state isInitial data st) as (_ & Hu & Hl & _).
    unfold unread_inv. rewrite Hu, Hl. apply headUnreadOutbound_counted.
  - rewrite loadMessages_err_state. exact H.
Qed.

Lemma markAsRead_inv (i : Z) (resp : Result unit) (st : State) :
  unread_inv st -> unread_inv (exec (markAsRead i resp) st).
Proof.
  intro H. destruct (Z.eq_dec i 0) as [->|Hi].
  - unfold exec. rewrite markAsRead_zero. exact H.
  - destruct resp as [u|e].
    + destruct (markAsRead_ok i u st Hi) as [_ Hl].
      unfold unread_inv. rewrite Hl. congruence.
    + destruct (markAsRead_err i e st) as [-> _]. exact H.
Qed.

Lemma runOp_inv (op : Op) (st : State) :
  unread_inv st -> unread_inv (exec (runOp op) st).
Proof.
  destruct op as [isInitial resp|i resp|c u n t resp|f env]; simpl runOp.
  - apply loadMessages_inv.
  - apply markAsRead_inv.
  - apply sameTracking_inv, handleSendMessage_tracking.
  - apply sameTracking_inv, handleImageUpload_tracking.
Qed.

(** The invariant holds in every state the component reaches. *)
Lemma reachable_inv (st : State) : reachable st -> unread_inv st.
Proof.
  induction 1 as [|st op _ IH].
  - unfold unread_inv. simpl. congruence.
  - apply runOp_inv, IH.
Qed.

(** C6: every handler preserves "the low-water-mark is nonzero only while
    the unread count is positive", and a successful read confirmation sets
    both cells to zero in one step. *)
Theorem unread_inv_preserved (op : Op) (st : State) (Hinv : unread_inv st) :
  unread_inv (exec (runOp op) st) /\
  (forall i u, op = OpMarkAsRead i (Ok u) -> i <> 0 ->
     unreadCount (exec (runOp op) st) = 0%nat /\
     lastUnreadId (exec (runOp op) st) = 0).
Proof.
  split.
  - apply runOp_inv, Hinv.
  - intros i u -> Hi. simpl runOp. apply markAsRead_ok, Hi.
Qed.

Lemma unread_inv_preserved_witness :
  unread_inv unreadState /\
  unread_inv (exec (runOp (OpLoadMessages false (Ok (HistArray scenarioHistory))))
                unreadState) /\
  unreadCount (exec (runOp (OpMarkAsRead 5 (Ok tt))) unreadState) = 0%nat /\
  lastUnreadId (exec (runOp (OpMarkAsRead 5 (Ok tt))) unreadState) = 0.
Proof.
  assert (H : unread_inv unreadState)
    by (unfold unread_inv; simpl; intros _; lia).
  split; [exact H|]. split.
  - apply (unread_inv_preserved
             (OpLoadMessages false (Ok (HistArray scenarioHistory)))
             unreadState H).
  - apply (proj2 (unread_inv_preserved (OpMarkAsRead 5 (Ok tt)) unreadState H)
             5 tt eq_refl).
    discriminate.
Defined.

(* ================================================================== *)
(** ** Sending *)
(* ================================================================== *)

Lemma updateById_fresh (i : Z) (f : Message -> Message) (l : list Message) :
  (forall m, In m l -> id m <> i) -> updateById i f l = l.
Proof.
  unfold updateById.
  induction l as [|m r IH]; simpl; intro H; [reflexivity|].
  destruct (Z.eqb_spec (id m) i) as [E|_].
  - exfalso. apply (H m); auto.
  - f_equal. apply IH. intros m' Hm'. apply H. auto.
Qed.


Lemma updateById_status_content (i : Z) (s : option Z) (l : list Message) :
  map content (updateById i (with_msgStatus s) l) = map content l.
Proof.
  unfold updateById. rewrite map_map. apply map_ext.
  intro m. destruct (Z.eqb (id m) i); reflexivity.
Qed.

(** State and trace of a send that passes the guard. *)
Lemma handleSendMessage_run (c u : js_string) (n t : Z) (resp : Result unit)
  (st : State) :
  sendGuard c u = false ->
  let temp := tempMessage c u n t in
  let r := handleSendMessage c u n t resp in
  messages (exec r st)
    = updateById n (with_msgStatus
                      match resp with Ok _ => None | Err _ => Some 2 end)
        (messages st ++ [temp]) /\
  requests (trace r st) = [ReqSendChat (trim c) u] /\
  toasts (trace r st) = match resp with Ok _ => [] | Err e => [e] end /\
  inputValue (exec r st) = [] /\
  sending (exec r st) = false.
Proof.
  intro Hg. unfold handleSendMessage. rewrite Hg.
  destruct resp as [[]|e]; run_handler; simpl; auto.
Qed.



Lemma sendStart_run (c u : js_string) (n t : Z) (st : State) :
  sendGuard c u = false ->
  sendStart c u n t st
  = (Some n,
     mkState (messages st ++ [tempMessage c u n t]) (greetings st) [] true
             (toast st) (unreadCount st) (isFirstLoad st) (lastUnreadId st),
     [EvScroll Smooth; EvRequest (ReqSendChat (trim c) u)]).
Proof.
  intro Hg. unfold sendStart. rewrite Hg. reflexivity.
Qed.


Lemma sendResume_ok (n : Z) (u : unit) (mid : State) :
  sendResume n (Ok u) mid
  = (tt,
     mkState (updateById n (with_msgStatus None) (messages mid))
             (greetings mid) (inputValue mid) false (toast mid)
             (unreadCount mid) (isFirstLoad mid) (lastUnreadId mid),
     []).
Proof. reflexivity. Qed.

Lemma updateById_only (n : Z) (f : Message -> Message)
  (l1 : list Message) (m : Message) (l2 : list Message) :
  onlyWithId n l1 m l2 -> updateById n f (l1 ++ m :: l2) = l1 ++ f m :: l2.
Proof.
  intros [Hm Hothers]. unfold updateById. rewrite map_app. simpl.
  fold (updateById n f l1). fold (updateById n f l2).
  rewrite Hm, Z.eqb_refl.
  rewrite !updateById_fresh; [reflexivity| |];
    intros x Hx; apply Hothers, in_or_app; auto.
Qed.



(** C8: a send with empty content and empty image URL returns at the guard:
    the state is the state before, and the trace is empty (no request, no
    toast, no scroll). *)
Theorem handleSendMessage_empty (n t : Z) (resp : Result unit) (st : State) :
  handleSendMessage [] [] n t resp st = (tt, st, []).
Proof. reflexivity. Qed.

(** C10: a send whose content is only whitespace, with no image URL, returns
    at the guard with state and trace untouched; a send that passes the guard
    stores the trimmed content in the optimistic message, leaves the content
    of every other message alone, and sends the trimmed content to the
    server. *)
Theorem handleSendMessage_trims (ws c u : js_string) (n t : Z)
  (resp : Result unit) (st : State)
  (Hws : forallb isWhiteSpace ws = true)
  (Hguard : sendGuard c u = false) :
  handleSendMessage ws [] n t resp st = (tt, st, []) /\
  content (tempMessage c u n t) = trim c /\
  map content (messages (exec (handleSendMessage c u n t resp) st))
    = map content (messages st) ++ [trim c] /\
  requests (trace (handleSendMessage c u n t resp) st)
    = [ReqSendChat (trim c) u].
Proof.
  split.
  - unfold handleSendMessage. rewrite (sendGuard_whitespace _ Hws).
    reflexivity.
  - destruct (handleSendMessage_run c u n t resp st Hguard)
      as (Hm & Hr & _).
    rewrite Hm, Hr, updateById_status_content, map_app.
    repeat split.
Qed.

Lemma handleSendMessage_trims_witness :
  forallb isWhiteSpace (lit "  ") = true /\
  sendGuard (lit " hi ") [] = false /\
  handleSendMessage (lit "  ") [] 2000 2000 (Ok tt) oneMessageState
    = (tt, oneMessageState, []) /\
  map content (messages (exec (handleSendMessage (lit " hi ") [] 2000 2000
                                 (Ok tt)) oneMessageState))
    = [lit "first"; lit "hi"].
Proof.
  split; [reflexivity|]. split; [reflexivity|].
  pose proof (handleSendMessage_trims (lit "  ") (lit " hi ") [] 2000 2000
                (Ok tt) oneMessageState eq_refl eq_refl) as (H1 & _ & H3 & _).
  split; [exact H1 | exact H3].
Defined.

(* ================================================================== *)
(** ** Image upload *)
(* ================================================================== *)

(** C9: a file larger than 2 MiB is rejected at the size check, before
    any [await]: exactly one toast is raised and the toast cell shows its
    text; the message list and every other cell are as before; no request is
    made. *)
Theorem handleImageUpload_oversized (f : File) (env : UploadEnv) (st : State)
  (Hsize : 2 * 1024 * 1024 < size f) :
  let r := handleImageUpload (Some f) env in
  let text := lit "Image size must be less than 2MB" in
  toasts (trace r st) = [text] /\
  toast (exec r st) = mkToast true text /\
  messages (exec r st) = messages st /\
  requests (trace r st) = [] /\
  trace r st = [EvToast text] /\
  exec r st
  = mkState (messages st) (greetings st) (inputValue st) (sending st)
            (mkToast true text) (unreadCount st) (isFirstLoad st)
            (lastUnreadId st) /\
  uploadStart (Some f) env st = (None, exec r st, trace r st).
Proof.
  cbv zeta. unfold handleImageUpload, uploadStart.
  destruct (Z.ltb_spec MAX_SIZE (size f)) as [_|Hle].
  - run_handler. repeat split.
  - unfold MAX_SIZE in Hle. lia.
Qed.

Lemma handleImageUpload_oversized_witness :
  2 * 1024 * 1024 < size bigFile /\
  toasts (trace (handleImageUpload (Some bigFile) okEnv) oneMessageState)
    = [lit "Image size must be less than 2MB"] /\
  toast (exec (handleImageUpload (Some bigFile) okEnv) oneMessageState)
    = mkToast true (lit "Image size must be less than 2MB") /\
  messages (exec (handleImageUpload (Some bigFile) okEnv) oneMessageState)
    = messages oneMessageState /\
  requests (trace (handleImageUpload (Some bigFile) okEnv) oneMessageState)
    = [].
Proof.
  assert (Hs : 2 * 1024 * 1024 < size bigFile) by (simpl; lia).
  split; [exact Hs|].
  pose proof (handleImageUpload_oversized bigFile okEnv oneMessageState Hs)
    as (H1 & H2 & H3 & H4 & _).
  repeat split; assumption.
Defined.

(* ================================================================== *)
(** ** The transport *)
(* ================================================================== *)

Lemma str_eqb_eq (a b : js_string) : str_eqb a b = true <-> a = b.
Proof.
  revert b. induction a as [|x a IH]; intros [|y b]; simpl;
    try (split; [discriminate | congruence]); [tauto|].
  rewrite andb_true_iff, N.eqb_eq, IH.
  split; [intros [-> ->]; reflexivity | intro H; inversion H; auto].
Qed.

Lemma str_eqb_refl (a : js_string) : str_eqb a a = true.
Proof. apply str_eqb_eq. reflexivity. Qed.

Lemma str_eqb_neq (a b : js_string) : str_eqb a b = false <-> a <> b.
Proof.
  rewrite <- str_eqb_eq. destruct (str_eqb a b); split; congruence.
Qed.

Lemma objGet_objSet_same (k v : js_string) (o : Obj) :
  objGet k (objSet k v o) = Some v.
Proof.
  induction o as [|[k' v'] r IH]; simpl.
  - rewrite str_eqb_refl. reflexivity.
  - destruct (str_eqb k' k) eqn:E; simpl; rewrite E; auto.
Qed.

Lemma objGet_objSet_other (k k' v : js_string) (o : Obj) :
  k' <> k -> objGet k (objSet k' v o) = objGet k o.
Proof.
  intro Hne. induction o as [|[k0 v0] r IH]; simpl.
  - apply str_eqb_neq in Hne. rewrite Hne. reflexivity.
  - destruct (str_eqb k0 k') eqn:E; simpl.
    + apply str_eqb_eq in E. subst k0.
      apply str_eqb_neq in Hne. rewrite Hne. reflexivity.
    + rewrite IH. reflexivity.
Qed.

Lemma objGet_absent (k : js_string) (o : Obj) :
  ~ In k (map fst o) -> objGet k o = None.
Proof.
  induction o as [|[k' v'] r IH]; simpl; intro H; [reflexivity|].
  destruct (str_eqb k' k) eqn:E.
  - apply str_eqb_eq in E. tauto.
  - apply IH. tauto.
Qed.

Lemma objSpread_get (k : js_string) (extra : Obj) :
  NoDup (map fst extra) ->
  forall base,
    objGet k (objSpread base extra)
    = match objGet k extra with
      | Some v => Some v
      | None => objGet k base
      end.
Proof.
  unfold objSpread.
  induction extra as [|[k1 v1] r IH]; simpl; intros Hnd base; [reflexivity|].
  inversion Hnd as [|? ? Hnotin Hnd']; subst.
  rewrite (IH Hnd').
  destruct (str_eqb k1 k) eqn:E.
  - apply str_eqb_eq in E. subst k1.
    rewrite (objGet_absent _ _ Hnotin). apply objGet_objSet_same.
  - apply str_eqb_neq in E.
    destruct (objGet k r); [reflexivity|].
    apply objGet_objSet_other. exact E.
Qed.

(** X1: [request] hands data to its caller exactly when the response is
    [ok] and the decoded envelope has code 200, and then it is the
    envelope's [data]; every other outcome is an error. *)
Theorem request_ok_iff {A} (o : FetchOutcome A) (d : A) :
  request o = Ok d <->
  exists status env,
    o = FetchResponse true status (Ok env) /\ code env = 200 /\ data env = d.
Proof.
  split.
  - destruct o as [m|[|] status [env|m]]; simpl; try discriminate.
    destruct (Z.eqb_spec (code env) 200) as [E|N]; simpl; [|discriminate].
    intro H. inversion H. exists status, env. auto.
  - intros (status & env & -> & Hc & <-). simpl.
    rewrite Hc. reflexivity.
Qed.

(** X2: the headers a caller passes in [options.headers] override the three
    defaults of [request] key by key, and a key the caller does not pass
    keeps its default. *)
Theorem requestHeaders_override (api : ApiState) (options : Options)
  (h : Obj) (k : js_string)
  (Hh : headers options = Some h)
  (Hkeys : NoDup (map fst h)) :
  objGet k (requestHeaders api options)
  = match objGet k h with
    | Some v => Some v
    | None =>
        objGet k [ (lit "Content-Type", lit "application/json");
                   (lit "Authorization", token api);
                   (lit "api-key", apiKey api) ]
    end.
Proof.
  unfold requestHeaders. rewrite Hh. apply objSpread_get. exact Hkeys.
Qed.

Lemma requestHeaders_override_witness :
  objGet (lit "api-key")
    (requestHeaders (mkApi (lit "session") (lit "k1"))
       (mkOptions None None (Some [(lit "Authorization", lit "tmp")])))
  = Some (lit "k1").
Proof.
  rewrite (requestHeaders_override (mkApi (lit "session") (lit "k1"))
             (mkOptions None None (Some [(lit "Authorization", lit "tmp")]))
             [(lit "Authorization", lit "tmp")] (lit "api-key") eq_refl).
  - reflexivity.
  - simpl. constructor; [simpl; tauto | constructor].
Defined.

(** X3: [login] sends the temporary token as [Authorization], whatever
    token the client holds; the API key and the content type are the
    defaults. *)
Theorem login_sends_temp_token (api : ApiState) (phone tempToken : js_string) :
  let h := httpHeaders (login_fetch api phone tempToken) in
  objGet (lit "Authorization") h = Some tempToken /\
  objGet (lit "api-key") h = Some (apiKey api) /\
  objGet (lit "Content-Type") h = Some (lit "application/json") /\
  List.length h = 3%nat.
Proof.
  repeat split; reflexivity.
Qed.

(** X4: every request a handler issues through [request] goes to a URL
    under [API_BASE_URL] and carries the client's token and API key; the
    upload goes to the signed URL and carries no header at all. *)
Theorem fetchOf_credentials (api : ApiState) (r : Request) :
  match r with
  | ReqUpload u _ _ =>
      httpUrl (fetchOf api r) = u /\ httpHeaders (fetchOf api r) = []
  | _ =>
      (exists endpoint, httpUrl (fetchOf api r) = API_BASE_URL ++ endpoint) /\
      objGet (lit "Authorization") (httpHeaders (fetchOf api r))
        = Some (token api) /\
      objGet (lit "api-key") (httpHeaders (fetchOf api r))
        = Some (apiKey api)
  end.
Proof.
  destruct r; simpl fetchOf; repeat split; try reflexivity;
    eexists; reflexivity.
Qed.

(* ================================================================== *)
(** ** Sending: success, error text, the two ways to send *)
(* ================================================================== *)

Lemma handleSendMessage_toast_cell (c u : js_string) (n t : Z)
  (resp : Result unit) (st : State) :
  sendGuard c u = false ->
  toast (exec (handleSendMessage c u n t resp) st)
  = match resp with
    | Ok _ => toast st
    | Err e => mkToast true e
    end.
Proof.
  intro Hg. unfold handleSendMessage. rewrite Hg.
  destruct resp as [[]|e]; run_handler; reflexivity.
Qed.

Lemma handleSendMessage_guarded (c u : js_string) (n t : Z)
  (resp : Result unit) (st : State) :
  sendGuard c u = true ->
  handleSendMessage c u n t resp st = (tt, st, []).
Proof.
  intro Hg. unfold handleSendMessage. rewrite Hg. reflexivity.
Qed.

Lemma updateById_append_fresh (n : Z) (f : Message -> Message)
  (l : list Message) (m : Message) :
  (forall x, In x l -> id x <> n) -> id m = n ->
  updateById n f (l ++ [m]) = l ++ [f m].
Proof.
  intros Hf Hm. unfold updateById. rewrite map_app.
  fold (updateById n f l). rewrite (updateById_fresh _ _ _ Hf).
  simpl. rewrite Hm, Z.eqb_refl. reflexivity.
Qed.

(** X5: a send that passes the guard and is acknowledged.  Its first run
    appends the optimistic message, clears the input and sets [sending].
    When the acknowledgement arrives, the status is cleared on every message
    of the list as it then is whose id is the optimistic id: on exactly the
    optimistic message when it is still listed and alone with its id, on
    none when a poll answer has replaced the list.  That run raises no
    toast, leaves the toast cell and the input as it finds them and sets
    [sending] to false.  With nothing in between and an id new to the list,
    the list ends as before followed by the optimistic message without
    status. *)
Theorem handleSendMessage_acknowledged (c u : js_string) (n t : Z)
  (st mid : State)
  (Hguard : sendGuard c u = false) :
  let st1 := exec (sendStart c u n t) st in
  let st' := exec (sendResume n (Ok tt)) mid in
  messages st1 = messages st ++ [tempMessage c u n t] /\
  inputValue st1 = [] /\
  sending st1 = true /\
  messages st' = updateById n (with_msgStatus None) (messages mid) /\
  (forall l1 m l2,
     messages mid = l1 ++ m :: l2 -> onlyWithId n l1 m l2 ->
     messages st'
     = l1 ++ mkMessage (id m) (content m) (image_url m) (is_reply m)
                       (is_view m) (create_time m) (title m) None :: l2) /\
  (noneWithId n (messages mid) -> messages st' = messages mid) /\
  toasts (trace (sendResume n (Ok tt)) mid) = [] /\
  toast st' = toast mid /\
  inputValue st' = inputValue mid /\
  sending st' = false /\
  (noneWithId n (messages st) ->
   messages (exec (handleSendMessage c u n t (Ok tt)) st)
   = messages st ++ [mkMessage n (trim c) u false true (Qmake t 1000)
                               None None]).
Proof.
  cbv zeta. unfold exec, trace.
  rewrite (sendStart_run c u n t st Hguard), sendResume_ok.
  cbn [fst snd messages toast inputValue sending].
  repeat (split; [reflexivity|]).
  split; [intros l1 m l2 -> Honly;
          exact (updateById_only n (with_msgStatus None) l1 m l2 Honly)|].
  split; [intro Hnone; apply updateById_fresh, Hnone|].
  repeat (split; [reflexivity|]).
  intro Hnone.
  destruct (handleSendMessage_run c u n t (Ok tt) st Hguard) as (Hm & _).
  unfold exec in Hm. rewrite Hm.
  exact (updateById_append_fresh n (with_msgStatus None) (messages st)
           (tempMessage c u n t) Hnone eq_refl).
Qed.

Lemma handleSendMessage_acknowledged_witness :
  messages (exec (sendResume 2000 (Ok tt)) polledState) = messages polledState /\
  messages (exec (handleSendMessage (lit " hi ") [] 2000 2000 (Ok tt))
              oneMessageState)
  = [earlierMessage;
     mkMessage 2000 (lit "hi") [] false true (Qmake 2000 1000) None None].
Proof.
  pose proof (handleSendMessage_acknowledged (lit " hi ") [] 2000 2000
                oneMessageState polledState eq_refl)
    as (_ & _ & _ & _ & _ & H6 & _ & _ & _ & _ & H11).
  split.
  - apply H6. unfold noneWithId. simpl. intros x [<-|[]]. simpl. discriminate.
  - apply H11. unfold noneWithId. simpl. intros x [<-|[]]. simpl. discriminate.
Defined.

Lemma msgOrDefault_nonempty (m : option js_string) : msgOrDefault m <> [].
Proof.
  destruct m as [[|x s]|]; simpl; discriminate.
Qed.

(** X6: the text of the toast a send raises, by the transport outcome: the
    rejection message of [fetch] or of [json()]; "HTTP error! status: N" for
    a response that is not [ok], whatever its body; for an envelope whose
    code is not 200 the server's [msg], or "Request failed" when [msg] is
    missing or empty, so that this text is never empty; and no toast for
    code 200. *)
Theorem handleSendMessage_toast_text (c u : js_string) (n t : Z)
  (o : FetchOutcome unit) (st : State)
  (Hguard : sendGuard c u = false) :
  toasts (trace (handleSendMessage c u n t (request o)) st)
  = match o with
    | FetchRejected m => [m]
    | FetchResponse false status _ =>
        [lit "HTTP error! status: " ++ numToString status]
    | FetchResponse true _ (Err m) => [m]
    | FetchResponse true _ (Ok env) =>
        if Z.eqb (code env) 200 then [] else [msgOrDefault (msg env)]
    end /\
  (forall status env,
     o = FetchResponse true status (Ok env) -> code env <> 200 ->
     toast (exec (handleSendMessage c u n t (request o)) st)
       = mkToast true (msgOrDefault (msg env)) /\
     msgOrDefault (msg env) <> []).
Proof.
  destruct (handleSendMessage_run c u n t (request o) st Hguard)
    as (_ & _ & Ht & _).
  split.
  - rewrite Ht.
    destruct o as [m|[|] status [env|m]]; simpl; try reflexivity.
    destruct (Z.eqb (code env) 200); reflexivity.
  - intros status env -> Hc.
    rewrite (handleSendMessage_toast_cell _ _ _ _ _ _ Hguard). simpl.
    destruct (Z.eqb_spec (code env) 200) as [E|_]; [contradiction|].
    simpl. split; [reflexivity | apply msgOrDefault_nonempty].
Qed.

Lemma handleSendMessage_toast_text_witness :
  toasts (trace (handleSendMessage (lit "hi") [] 2000 2000
                   (request (FetchResponse true 200
                               (Ok (mkEnvelope 500 (Some []) tt))))) initialState)
  = [lit "Request failed"].
Proof.
  apply (proj1 (handleSendMessage_toast_text (lit "hi") [] 2000 2000
                  (FetchResponse true 200 (Ok (mkEnvelope 500 (Some []) tt)))
                  initialState eq_refl)).
Defined.

Lemma handleKeyPress_run (e : KeyboardEvent) (n t : Z) (resp : Result unit)
  (st : State) :
  handleKeyPress e n t resp st
  = if str_eqb (keyName e) (lit "Enter") && negb (shiftKey e)
    then (true, exec (handleSendMessage (inputValue st) [] n t resp) st,
          trace (handleSendMessage (inputValue st) [] n t resp) st)
    else (false, st, []).
Proof.
  unfold handleKeyPress.
  destruct (str_eqb (keyName e) (lit "Enter") && negb (shiftKey e));
    [|reflexivity].
  unfold bind, gets, ret, exec, trace.
  destruct (handleSendMessage (inputValue st) [] n t resp st) as [[[] s1] t1].
  simpl. rewrite app_nil_r. reflexivity.
Qed.

Lemma sendGuard_no_image (v : js_string) :
  sendGuard v [] = str_falsy (trim v).
Proof. unfold sendGuard. simpl. apply andb_true_r. Qed.

Lemma handleSendMessage_requests (c u : js_string) (n t : Z)
  (resp : Result unit) (st : State) :
  requests (trace (handleSendMessage c u n t resp) st)
  = if sendGuard c u then [] else [ReqSendChat (trim c) u].
Proof.
  destruct (sendGuard c u) eqn:Hg.
  - unfold trace. rewrite (handleSendMessage_guarded _ _ _ _ _ _ Hg).
    reflexivity.
  - apply (handleSendMessage_run c u n t resp st Hg).
Qed.

Lemma handleKeyPress_requests (e : KeyboardEvent) (n t : Z)
  (resp : Result unit) (st : State) :
  requests (trace (handleKeyPress e n t resp) st)
  = (if str_eqb (keyName e) (lit "Enter") && negb (shiftKey e)
        && negb (str_falsy (trim (inputValue st)))
     then [ReqSendChat (trim (inputValue st)) []]
     else []).
Proof.
  unfold trace. rewrite handleKeyPress_run.
  destruct (str_eqb (keyName e) (lit "Enter") && negb (shiftKey e)); simpl;
    [|reflexivity].
  fold (trace (handleSendMessage (inputValue st) [] n t resp) st).
  rewrite handleSendMessage_requests, sendGuard_no_image.
  destruct (str_falsy (trim (inputValue st))); reflexivity.
Qed.

(** X7: a key press calls [preventDefault] exactly for Enter without Shift,
    and sends exactly when, in addition, the input is not blank; then it
    sends the trimmed input.  Whether a send is in flight ([sending]) plays
    no part. *)
Theorem handleKeyPress_sends (e : KeyboardEvent) (n t : Z)
  (resp : Result unit) (st : State) :
  let isEnter := str_eqb (keyName e) (lit "Enter") && negb (shiftKey e) in
  fst (fst (handleKeyPress e n t resp st)) = isEnter /\
  requests (trace (handleKeyPress e n t resp) st)
  = (if isEnter && negb (str_falsy (trim (inputValue st)))
     then [ReqSendChat (trim (inputValue st)) []]
     else []) /\
  (isEnter = false -> exec (handleKeyPress e n t resp) st = st).
Proof.
  cbv zeta. rewrite handleKeyPress_requests.
  unfold exec. rewrite handleKeyPress_run.
  destruct (str_eqb (keyName e) (lit "Enter") && negb (shiftKey e)); simpl.
  - repeat split. discriminate.
  - repeat split.
Qed.

(** X8: a click on the send button sends exactly when the input is not
    blank and no send is in flight; a click while [sending] is true changes
    nothing, where Enter would send. *)
Theorem clickSend_sends (n t : Z) (resp : Result unit) (st : State) :
  requests (trace (clickSend n t resp) st)
  = (if negb (str_falsy (trim (inputValue st))) && negb (sending st)
     then [ReqSendChat (trim (inputValue st)) []]
     else []) /\
  (sending st = true -> clickSend n t resp st = (tt, st, [])) /\
  (sending st = true -> str_falsy (trim (inputValue st)) = false ->
   requests (trace (handleKeyPress enterKey n t resp) st)
   = [ReqSendChat (trim (inputValue st)) []]).
Proof.
  assert (Hrun : clickSend n t resp st
                 = if sendDisabled st then (tt, st, [])
                   else handleSendMessage (inputValue st) [] n t resp st).
  { unfold clickSend, bind, gets, ret.
    destruct (sendDisabled st); [reflexivity|].
    destruct (handleSendMessage (inputValue st) [] n t resp st) as [[[] s1] t1].
    reflexivity. }
  split; [|split].
  - unfold trace. rewrite Hrun. unfold sendDisabled.
    destruct (str_falsy (trim (inputValue st))) eqn:Hb; simpl; [reflexivity|].
    destruct (sending st); simpl; [reflexivity|].
    fold (trace (handleSendMessage (inputValue st) [] n t resp) st).
    rewrite handleSendMessage_requests, sendGuard_no_image, Hb. reflexivity.
  - intro Hs. rewrite Hrun. unfold sendDisabled. rewrite Hs, orb_true_r.
    reflexivity.
  - intros _ Hb. rewrite handleKeyPress_requests, Hb. reflexivity.
Qed.

(** X9: Enter pressed twice in a row sends at most once: after the first
    press the input is blank, so the second press issues no request and
    leaves the message list as the first press left it. *)
Theorem handleKeyPress_twice (n t n' t' : Z) (resp resp' : Result unit)
  (st : State) :
  let st1 := exec (handleKeyPress enterKey n t resp) st in
  requests (trace (handleKeyPress enterKey n' t' resp') st1) = [] /\
  exec (handleKeyPress enterKey n' t' resp') st1 = st1.
Proof.
  cbv zeta.
  assert (Hblank : str_falsy
                     (trim (inputValue (exec (handleKeyPress enterKey n t resp) st)))
                   = true).
  { unfold exec at 1. rewrite handleKeyPress_run. simpl.
    destruct (sendGuard (inputValue st) []) eqn:Hg.
    - unfold exec. rewrite (handleSendMessage_guarded _ _ _ _ _ _ Hg). simpl.
      rewrite <- sendGuard_no_image. exact Hg.
    - destruct (handleSendMessage_run (inputValue st) [] n t resp st Hg)
        as (_ & _ & _ & Hi & _).
      rewrite Hi. reflexivity. }
  set (st1 := exec (handleKeyPress enterKey n t resp) st) in *.
  split.
  - rewrite handleKeyPress_requests, Hblank, andb_false_r. reflexivity.
  - unfold exec at 1. rewrite handleKeyPress_run. simpl.
    unfold exec.
    rewrite handleSendMessage_guarded; [reflexivity|].
    rewrite sendGuard_no_image. exact Hblank.
Qed.

(** X10: choosing a keyword chip puts the keyword in the input, and Enter
    then sends it trimmed; a blank keyword, such as the one an empty line of
    [key_world] gives, sends nothing. *)
Theorem selectKeyword_then_enter (keyword : js_string) (n t : Z)
  (resp : Result unit) (st : State) :
  let st1 := exec (selectKeyword keyword) st in
  inputValue st1 = keyword /\
  messages st1 = messages st /\
  requests (trace (handleKeyPress enterKey n t resp) st1)
  = (if str_falsy (trim keyword) then []
     else [ReqSendChat (trim keyword) []]) /\
  requests (trace (handleKeyPress enterKey n t resp)
              (exec (selectKeyword []) st)) = [].
Proof.
  cbv zeta. rewrite !handleKeyPress_requests.
  unfold selectKeyword. run_handler.
  repeat split. simpl. destruct (str_falsy (trim keyword)); reflexivity.
Qed.

(* ================================================================== *)
(** ** Fetching: failures, greetings, the automatic scroll *)
(* ================================================================== *)

Lemma processMessages_trace (firstLoad : bool) (msgs : list Message)
  (st : State) :
  trace (processMessages firstLoad msgs) st
  = if firstLoad && Nat.eqb (countUnread msgs) 0 then [EvScroll Auto] else [].
Proof.
  unfold processMessages. cbv zeta.
  rewrite (processLoop_unread msgs 0 (mkLocals [] 0%nat 0)).
  simpl unread. rewrite Nat.add_0_r.
  destruct (firstLoad && Nat.eqb (countUnread msgs) 0); run_handler;
    reflexivity.
Qed.

(** X11: a fetch that fails changes no cell and raises no toast: its whole
    trace is the request and one console line.  A response that is not
    [ok] is such a failure, whatever body it carries. *)
Theorem loadMessages_failure_swallowed (isInitial : bool) (e : js_string)
  (status : N) (json : Result (Envelope History)) (st : State) :
  exec (loadMessages isInitial (Err e)) st = st /\
  trace (loadMessages isInitial (Err e)) st
    = [EvRequest (ReqChatHistory (negb (isFirstLoad st)));
       EvConsoleError "Failed to load messages:" e] /\
  exec (loadMessages isInitial (request (FetchResponse false status json))) st
    = st /\
  toasts (trace (loadMessages isInitial
                   (request (FetchResponse false status json))) st) = [].
Proof.
  split; [apply loadMessages_err_state|].
  split; [unfold loadMessages; run_handler; reflexivity|].
  simpl request. split; [apply loadMessages_err_state|].
  unfold loadMessages. run_handler. reflexivity.
Qed.

Lemma loadMessages_greetings_cases (isInitial : bool) (resp : Result History)
  (st : State) :
  greetings (exec (loadMessages isInitial resp) st)
  = match resp with
    | Ok (HistObject (Some (g :: gs)) _) =>
        if isInitial then map as_greeting (g :: gs) else greetings st
    | _ => greetings st
    end.
Proof.
  destruct resp as [[l|g l]|e].
  - unfold loadMessages. rewrite !exec_bind.
    pose proof (processMessages_state (isFirstLoad st) l st) as H.
    cbv zeta in H. destruct H as (_ & _ & _ & H & _).
    destruct isInitial; run_handler; exact H.
  - unfold loadMessages. rewrite !exec_bind.
    destruct g as [[|g0 gs]|]; simpl orEmpty; simpl List.length;
      simpl Nat.eqb; simpl negb; simpl andb.
    + pose proof (processMessages_state (isFirstLoad st) (orEmpty l) st) as H.
      cbv zeta in H. destruct H as (_ & _ & _ & H & _).
      destruct isInitial; run_handler; exact H.
    + destruct isInitial; run_handler;
        match goal with
        | |- context [exec (processMessages ?f ?m) ?s] =>
            pose proof (processMessages_state f m s) as H
        end;
        cbv zeta in H; destruct H as (_ & _ & _ & H & _);
        cbn [greetings] in H; exact H.
    + pose proof (processMessages_state (isFirstLoad st) (orEmpty l) st) as H.
      cbv zeta in H. destruct H as (_ & _ & _ & H & _).
      destruct isInitial; run_handler; exact H.
  - rewrite loadMessages_err_state. reflexivity.
Qed.

(** X12: the greeting list is written by one kind of fetch only: an initial
    fetch whose answer is an object with a non-empty [greeting]; it then
    holds those entries, in order, each forced to [is_reply] true and
    [is_view] true.  A poll, an array answer, an empty or missing
    [greeting] and a failed fetch leave the greeting list as it was. *)
Theorem loadMessages_greetings (isInitial : bool) (resp : Result History)
  (st : State) :
  greetings (exec (loadMessages isInitial resp) st)
  = match resp with
    | Ok (HistObject (Some (g :: gs)) _) =>
        if isInitial then map as_greeting (g :: gs) else greetings st
    | _ => greetings st
    end /\
  (greetings (exec (loadMessages isInitial resp) st) <> greetings st ->
   isInitial = true /\
   Forall (fun g => is_reply g = true /\ is_view g = true)
          (greetings (exec (loadMessages isInitial resp) st))).
Proof.
  pose proof (loadMessages_greetings_cases isInitial resp st) as H.
  split; [exact H|].
  intro Hne. rewrite H in *.
  destruct resp as [[l|[[|g0 gs]|] l]|e]; try congruence.
  destruct isInitial; [|congruence].
  split; [reflexivity|].
  apply Forall_forall. intros x Hx.
  apply in_map_iff in Hx as (y & <- & _). split; reflexivity.
Qed.

Lemma scrolls_app (t1 t2 : list Event) :
  scrolls (t1 ++ t2) = scrolls t1 ++ scrolls t2.
Proof. unfold scrolls. apply flat_map_app. Qed.

(** X13: a fetch scrolls to the bottom only when it succeeds while
    [isFirstLoad] is still true and the fetched batch has no unread entry;
    the scroll is then the unanimated one.  A poll after the first completed
    initial fetch never scrolls. *)
Theorem loadMessages_scroll (isInitial : bool) (resp : Result History)
  (st : State) :
  scrolls (trace (loadMessages isInitial resp) st)
  = match resp with
    | Ok data =>
        if isFirstLoad st && Nat.eqb (countUnread (historyList data)) 0
        then [Auto] else []
    | Err _ => []
    end.
Proof.
  unfold loadMessages.
  destruct resp as [[l|g l]|e]; rewrite !trace_bind, !scrolls_app;
    rewrite ?processMessages_trace; run_handler.
  - simpl historyList.
    destruct (isFirstLoad st && Nat.eqb (countUnread l) 0);
      destruct isInitial; reflexivity.
  - simpl historyList.
    destruct (negb _ && isInitial);
      destruct (isFirstLoad st && Nat.eqb (countUnread (orEmpty l)) 0);
      destruct isInitial; reflexivity.
  - reflexivity.
Qed.

(* ================================================================== *)
(** ** Read confirmation: what it leaves alone, and the observer *)
(* ================================================================== *)

Lemma markAsRead_requests (i : Z) (resp : Result unit) (st : State) :
  requests (trace (markAsRead i resp) st)
  = if Z.eqb i 0 then [] else [ReqChatRead i].
Proof.
  unfold markAsRead.
  destruct (Z.eqb i 0); [|destruct resp]; run_handler; reflexivity.
Qed.

(** X14: a read confirmation, whatever its id and outcome, leaves the
    message list untouched (the [is_view] flags of the local messages are
    not rewritten), and with it the greetings, the input, [sending], the
    toast and [isFirstLoad]; so after a success the unread count is 0 while
    the list may still hold unread entries. *)
Theorem markAsRead_frame (i : Z) (resp : Result unit) (st : State) :
  let st' := exec (markAsRead i resp) st in
  messages st' = messages st /\
  greetings st' = greetings st /\
  inputValue st' = inputValue st /\
  sending st' = sending st /\
  toast st' = toast st /\
  isFirstLoad st' = isFirstLoad st /\
  countUnread (messages st') = countUnread (messages st).
Proof.
  unfold markAsRead.
  destruct (Z.eqb i 0); [|destruct resp]; run_handler; repeat split.
Qed.

(** X15: the visibility observer of a listed message sends a read
    confirmation exactly when the message is unread, is reported as
    intersecting and has a non-zero id; the confirmation is for that
    message's id, and its success sets the unread count and the
    low-water-mark to zero however many unread messages there are. *)
Theorem messageObserved_confirms (m : Message) (isIntersecting : bool)
  (resp : Result unit) (st : State) :
  requests (trace (messageObserved m isIntersecting resp) st)
  = (if negb (is_view m) && isIntersecting && negb (Z.eqb (id m) 0)
     then [ReqChatRead (id m)] else []) /\
  (requests (trace (messageObserved m isIntersecting (Ok tt)) st) <> [] ->
   unreadCount (exec (messageObserved m isIntersecting (Ok tt)) st) = 0%nat /\
   lastUnreadId (exec (messageObserved m isIntersecting (Ok tt)) st) = 0).
Proof.
  unfold messageObserved.
  destruct (negb (is_view m) && isIntersecting); simpl.
  - rewrite !markAsRead_requests.
    destruct (Z.eqb_spec (id m) 0) as [E|N]; simpl.
    + split; [reflexivity | congruence].
    + split; [reflexivity|]. intros _. apply markAsRead_ok, N.
  - split; [reflexivity|]. run_handler. simpl. congruence.
Qed.

(* ================================================================== *)
(** ** Image upload: the accepted file *)
(* ================================================================== *)

Lemma toasts_app (t1 t2 : list Event) :
  toasts (t1 ++ t2) = toasts t1 ++ toasts t2.
Proof. unfold toasts. apply flat_map_app. Qed.

Lemma size_accepted (f : File) :
  size f <= 2 * 1024 * 1024 -> Z.ltb MAX_SIZE (size f) = false.
Proof. intro H. apply Z.ltb_ge. unfold MAX_SIZE. lia. Qed.

Lemma sendGuard_image (u : js_string) : sendGuard [] u = str_falsy u.
Proof. reflexivity. Qed.

Lemma handleImageUpload_failed_atomic (f : File) (env : UploadEnv)
  (e : js_string) (st : State)
  (Hsize : size f <= 2 * 1024 * 1024)
  (Herr : uploadError env = Some e)
  (Hfresh : forall m, In m (messages st) -> id m <> nowId env) :
  let r := handleImageUpload (Some f) env in
  messages (exec r st)
    = messages st ++ [mkMessage (nowId env) [] (previewUrl env) false true
                                (Qmake (nowTime env) 1000) None (Some 2)] /\
  toasts (trace r st) = [e] /\
  toast (exec r st) = mkToast true e /\
  (forall c u, ~ In (ReqSendChat c u) (requests (trace r st))).
Proof.
  cbv zeta. unfold handleImageUpload, uploadError in *.
  rewrite (size_accepted f Hsize).
  assert (Hupd : updateById (nowId env) (with_msgStatus (Some 2))
                   (messages st ++ [previewMessage env])
                 = messages st ++ [with_msgStatus (Some 2) (previewMessage env)])
    by (apply updateById_append_fresh; [exact Hfresh | reflexivity]).
  unfold previewMessage in Hupd.
  destruct (signResp env) as [sig|e1].
  - destruct (uploadResp env) as [[]|e2]; [discriminate|].
    inversion Herr; subst e2. run_handler.
    cbn [id]. rewrite Hupd.
    repeat split. simpl. intros c u [H|[H|[]]]; discriminate.
  - inversion Herr; subst e1. run_handler.
    cbn [id]. rewrite Hupd.
    repeat split. simpl. intros c u [H|[]]; discriminate.
Qed.

Lemma handleImageUpload_succeeded_atomic (f : File) (env : UploadEnv)
  (sig : OssSign) (st : State)
  (Hsize : size f <= 2 * 1024 * 1024)
  (Hsign : signResp env = Ok sig)
  (Hup : uploadResp env = Ok tt)
  (Hsend : sendResp env = Ok tt)
  (Hurl : url sig <> [])
  (Hfresh : forall m, In m (messages st) -> id m <> nowId env)
  (Hfresh' : forall m, In m (messages st) -> id m <> sendNowId env)
  (Hdistinct : nowId env <> sendNowId env) :
  let r := handleImageUpload (Some f) env in
  messages (exec r st)
    = messages st ++
      [ mkMessage (nowId env) [] (url sig) false true
                  (Qmake (nowTime env) 1000) None None;
        mkMessage (sendNowId env) [] (url sig) false true
                  (Qmake (sendNowTime env) 1000) None None ] /\
  toasts (trace r st) = [] /\
  inputValue (exec r st) = [].
Proof.
  cbv zeta. unfold handleImageUpload.
  rewrite (size_accepted f Hsize), Hsign, Hup, Hsend.
  assert (Hg : sendGuard [] (url sig) = false)
    by (rewrite sendGuard_image; destruct (url sig); [congruence | reflexivity]).
  assert (Hupd : updateById (nowId env) (with_image_status (url sig) None)
                   (messages st ++ [previewMessage env])
                 = messages st
                   ++ [with_image_status (url sig) None (previewMessage env)])
    by (apply updateById_append_fresh; [exact Hfresh | reflexivity]).
  unfold previewMessage in Hupd.
  rewrite !exec_bind, !trace_bind, !toasts_app. run_handler.
  cbn [id]. rewrite Hupd.
  match goal with
  | |- context [exec (handleSendMessage ?c ?u ?n ?t ?resp) ?s] =>
      destruct (handleSendMessage_run c u n t resp s Hg)
        as (Hm & _ & Ht & Hi & _)
  end.
  cbn [messages] in Hm. rewrite Hm, Ht, Hi.
  split; [|split; reflexivity].
  rewrite updateById_append_fresh; [| |reflexivity].
  - rewrite <- app_assoc. reflexivity.
  - intros m Hin. apply in_app_iff in Hin as [Hin|[<-|[]]].
    + apply Hfresh'. exact Hin.
    + simpl. exact Hdistinct.
Qed.

Lemma handleImageUpload_phases (file : option File) (env : UploadEnv)
  (st : State) :
  handleImageUpload file env st = uploadPhases file env st.
Proof.
  unfold handleImageUpload, uploadPhases, uploadStart, uploadAfterSign,
    uploadAfterUpload, uploadAfterSend, uploadCatch, handleSendMessage,
    sendStart, sendResume, previewMessage.
  destruct file as [f|]; [|reflexivity].
  destruct (Z.ltb MAX_SIZE (size f)); [reflexivity|].
  destruct (signResp env) as [sig|e1]; [|run_handler; reflexivity].
  destruct (uploadResp env) as [[]|e2]; [|run_handler; reflexivity].
  run_handler.
  destruct (sendGuard [] (url sig)); [run_handler; reflexivity|].
  run_handler.
  destruct (sendResp env) as [[]|e3]; run_handler; reflexivity.
Qed.

(** X16: an upload that fails.  Whichever answer brings the failure, the
    signature's or the upload's, that run writes status 2 to every message
    of the list as it then is whose id is the id of the preview message, and
    to no other, raises one toast with the error, shows it in the toast
    cell, sends no chat message and revokes the object URL last.  So the
    preview message is marked failed, keeping its preview URL, when it is
    still listed and alone with its id, and nothing is marked when a poll
    answer has replaced the list.  With nothing in between and an id new to
    the list, the list ends as before followed by the failed preview
    message. *)
Theorem handleImageUpload_failed (tempId : Z) (f : File) (sig : OssSign)
  (env : UploadEnv) (e : js_string) (mid st : State) :
  (signResp env = Err e ->
   endsInCatch tempId env e mid
     (exec (uploadAfterSign tempId f env) mid)
     (trace (uploadAfterSign tempId f env) mid)) /\
  (uploadResp env = Err e ->
   endsInCatch tempId env e mid
     (exec (uploadAfterUpload tempId sig env) mid)
     (trace (uploadAfterUpload tempId sig env) mid)) /\
  (forall l1 m l2,
     messages mid = l1 ++ m :: l2 -> onlyWithId tempId l1 m l2 ->
     updateById tempId (with_msgStatus (Some 2)) (messages mid)
     = l1 ++ mkMessage (id m) (content m) (image_url m) (is_reply m)
                       (is_view m) (create_time m) (title m) (Some 2) :: l2) /\
  (noneWithId tempId (messages mid) ->
   updateById tempId (with_msgStatus (Some 2)) (messages mid)
   = messages mid) /\
  (size f <= 2 * 1024 * 1024 -> uploadError env = Some e ->
   noneWithId (nowId env) (messages st) ->
   messages (exec (handleImageUpload (Some f) env) st)
   = messages st ++ [mkMessage (nowId env) [] (previewUrl env) false true
                               (Qmake (nowTime env) 1000) None (Some 2)]) /\
  handleImageUpload (Some f) env st = uploadPhases (Some f) env st.
Proof.
  split; [|split; [|split; [|split; [|split]]]].
  - intro H. unfold uploadAfterSign. rewrite H.
    unfold endsInCatch. run_handler. repeat split.
    simpl. intros c u [].
  - intro H. unfold uploadAfterUpload. rewrite H.
    unfold endsInCatch. run_handler. repeat split.
    simpl. intros c u [].
  - intros l1 m l2 -> Honly.
    exact (updateById_only tempId (with_msgStatus (Some 2)) l1 m l2 Honly).
  - intro Hnone. apply updateById_fresh, Hnone.
  - intros Hsize Herr Hnone.
    apply (handleImageUpload_failed_atomic f env e st Hsize Herr Hnone).
  - apply handleImageUpload_phases.
Qed.

Lemma handleImageUpload_failed_witness :
  signResp failingEnv = Err (lit "no signature") /\
  messages (exec (uploadAfterSign 2000 (mkFile (lit "a.png") 10) failingEnv)
              polledState)
  = messages polledState /\
  toast (exec (uploadAfterSign 2000 (mkFile (lit "a.png") 10) failingEnv)
           polledState)
  = mkToast true (lit "no signature").
Proof.
  pose proof (handleImageUpload_failed 2000 (mkFile (lit "a.png") 10)
                (mkOssSign [] [] (mkCredentials [] [] [] []))
                failingEnv (lit "no signature") polledState polledState)
    as (H1 & _ & _ & H4 & _).
  destruct (H1 eq_refl) as (Hm & Ht & _).
  split; [reflexivity|]. split; [|exact Ht].
  rewrite Hm. apply H4.
  unfold noneWithId. simpl. intros x [<-|[]]. simpl. discriminate.
Defined.

(** X17: an upload whose upload request succeeds, with a permanent URL that
    is not empty.  The run the upload answer starts rewrites, on the list as
    it then is, every message with the preview id to the permanent URL
    without status, and appends a second optimistic message, that of the
    nested send, with the same URL and empty content; it sends the chat
    message.  The run the send's acknowledgement starts clears the status
    of the messages with that second id on the list as it then is, raises no
    toast, leaves the toast cell alone and revokes the object URL last.
    With nothing in between, and ids new to the list and distinct, the list
    ends with two entries for the one image. *)
Theorem handleImageUpload_succeeded (tempId : Z) (f : File) (sig : OssSign)
  (env : UploadEnv) (mid1 mid2 st : State)
  (Hup : uploadResp env = Ok tt)
  (Hurl : url sig <> [])
  (Hsend : sendResp env = Ok tt) :
  let p3 := uploadAfterUpload tempId sig env in
  let p4 := uploadAfterSend (sendNowId env) env in
  fst (fst (p3 mid1)) = Some (sendNowId env) /\
  messages (exec p3 mid1)
  = updateById tempId (with_image_status (url sig) None) (messages mid1)
    ++ [mkMessage (sendNowId env) [] (url sig) false true
                  (Qmake (sendNowTime env) 1000) None (Some 1)] /\
  requests (trace p3 mid1) = [ReqSendChat [] (url sig)] /\
  messages (exec p4 mid2)
  = updateById (sendNowId env) (with_msgStatus None) (messages mid2) /\
  toasts (trace p4 mid2) = [] /\
  toast (exec p4 mid2) = toast mid2 /\
  last (trace p4 mid2) (EvScroll Auto) = EvRevokeObjectURL (previewUrl env) /\
  (size f <= 2 * 1024 * 1024 -> signResp env = Ok sig ->
   noneWithId (nowId env) (messages st) ->
   noneWithId (sendNowId env) (messages st) ->
   nowId env <> sendNowId env ->
   messages (exec (handleImageUpload (Some f) env) st)
   = messages st ++
     [ mkMessage (nowId env) [] (url sig) false true
                 (Qmake (nowTime env) 1000) None None;
       mkMessage (sendNowId env) [] (url sig) false true
                 (Qmake (sendNowTime env) 1000) None None ]).
Proof.
  cbv zeta.
  assert (Hg : sendGuard [] (url sig) = false)
    by (rewrite sendGuard_image; destruct (url sig); [congruence | reflexivity]).
  unfold uploadAfterUpload, uploadAfterSend, sendStart, sendResume.
  rewrite Hup, Hsend, Hg.
  split; [reflexivity|]. split; [reflexivity|]. split; [reflexivity|].
  split; [reflexivity|]. split; [reflexivity|]. split; [reflexivity|].
  split; [reflexivity|].
  intros Hsize Hsign Hf Hf' Hd.
  apply (handleImageUpload_succeeded_atomic f env sig st Hsize Hsign Hup Hsend
           Hurl Hf Hf' Hd).
Qed.

Lemma handleImageUpload_succeeded_witness :
  map image_url
    (messages (exec (uploadAfterUpload 2000
                       (mkOssSign (lit "https://oss/up")
                                  (lit "https://oss/photo.png")
                                  (mkCredentials [] [] [] []))
                       okEnv) polledState))
  = [[]; lit "https://oss/photo.png"].
Proof.
  pose proof (handleImageUpload_succeeded 2000 (mkFile (lit "photo.png") 1024)
                (mkOssSign (lit "https://oss/up") (lit "https://oss/photo.png")
                           (mkCredentials [] [] [] []))
                okEnv polledState polledState polledState eq_refl) as H.
  cbv zeta in H.
  destruct H as (_ & H & _); [discriminate | reflexivity |].
  rewrite H. reflexivity.
Defined.


(** X18: for every file of at most 2 MiB, the boundary included, and every
    outcome: the requests are, in order, the signature request for the
    file's extension, then the upload if the signature came, then the chat
    message if the upload succeeded and the permanent URL is not empty; the
    object URL is created once and revoked once, at the very end; for no
    file and for a rejected file no object URL is created. *)
Theorem handleImageUpload_accepted (f : File) (env : UploadEnv) (st : State)
  (Hsize : size f <= 2 * 1024 * 1024) :
  let r := handleImageUpload (Some f) env in
  requests (trace r st)
    = ReqOssSign (fileExt (name f)) ::
      match signResp env with
      | Err _ => []
      | Ok sig =>
          ReqUpload (upload_url sig) f (credentials sig) ::
          match uploadResp env with
          | Err _ => []
          | Ok _ =>
              if str_falsy (url sig) then []
              else [ReqSendChat [] (url sig)]
          end
      end /\
  urlEvents (trace r st)
    = [EvCreateObjectURL f (previewUrl env);
       EvRevokeObjectURL (previewUrl env)] /\
  last (trace r st) (EvScroll Auto) = EvRevokeObjectURL (previewUrl env) /\
  urlEvents (trace (handleImageUpload None env) st) = [].
Proof.
  cbv zeta. unfold handleImageUpload, handleSendMessage.
  rewrite (size_accepted f Hsize).
  destruct (signResp env) as [sig|e1]; [|run_handler; repeat split].
  destruct (uploadResp env) as [[]|e2]; [|run_handler; repeat split].
  rewrite sendGuard_image.
  destruct (url sig) as [|c u] eqn:Hu; cbn [str_falsy];
    [run_handler; repeat split|].
  destruct (sendResp env); run_handler; repeat split.
Qed.

Lemma handleImageUpload_accepted_witness :
  List.length
    (requests (trace (handleImageUpload
                        (Some (mkFile (lit "photo.png") (2 * 1024 * 1024)))
                        okEnv) initialState))
  = 3%nat.
Proof.
  assert (Hs : size (mkFile (lit "photo.png") (2 * 1024 * 1024))
               <= 2 * 1024 * 1024) by (simpl; lia).
  rewrite (proj1 (handleImageUpload_accepted
                    (mkFile (lit "photo.png") (2 * 1024 * 1024))
                    okEnv initialState Hs)).
  reflexivity.
Defined.

(* ================================================================== *)
(** ** The file extension sent to the signature endpoint *)
(* ================================================================== *)

Lemma matchExt_some (s e : js_string) :
  matchExt s = Some e ->
  exists pre r,
    s = pre ++ e /\ e = 46%N :: r /\ r <> [] /\ noDot r = true.
Proof.
  induction s as [|c s IH]; simpl; [discriminate|].
  destruct (isDot c && negb (str_falsy s) && noDot s) eqn:E;
    unfold noDot in E; rewrite E.
  - intro H. inversion H; subst e.
    apply andb_true_iff in E as [E Hnd].
    apply andb_true_iff in E as [Hc Hne].
    exists [], s. repeat split.
    + unfold isDot in Hc. apply N.eqb_eq in Hc. subst c. reflexivity.
    + destruct s; [discriminate | discriminate].
    + exact Hnd.
  - intro H. destruct (IH H) as (pre & r & -> & He & Hr & Hnd).
    exists (c :: pre), r. repeat split; assumption.
Qed.

Lemma matchExt_noDot (s : js_string) : noDot s = true -> matchExt s = None.
Proof.
  unfold noDot.
  induction s as [|c s IH]; simpl; [reflexivity|].
  intro H. apply andb_true_iff in H as [Hc Hs].
  apply negb_true_iff in Hc. rewrite Hc. simpl. exact (IH Hs).
Qed.

(** X19: the extension is always a suffix of the file name, and it is
    either empty or a dot followed by one or more characters none of which
    is a dot; a name without a dot has the empty extension. *)
Theorem fileExt_shape (name : js_string) :
  (exists pre, name = pre ++ fileExt name) /\
  (fileExt name = [] \/
   exists r, fileExt name = 46%N :: r /\ r <> [] /\ noDot r = true) /\
  (noDot name = true -> fileExt name = []).
Proof.
  unfold fileExt.
  destruct (matchExt name) as [e|] eqn:E.
  - destruct (matchExt_some _ _ E) as (pre & r & Hn & He & Hr & Hnd).
    split; [exists pre; exact Hn|].
    split; [right; exists r; auto|].
    intro H. rewrite (matchExt_noDot _ H) in E. discriminate.
  - split; [exists name; symmetry; apply app_nil_r|].
    split; [left; reflexivity | reflexivity].
Qed.

(** X20: for a name that ends in a dot followed by a non-empty part
    without dots, the extension is that dot and that part, whatever comes
    before, dots included. *)
Theorem fileExt_last_part (base e : js_string)
  (He : e <> [])
  (Hnd : noDot e = true) :
  fileExt (base ++ 46%N :: e) = 46%N :: e.
Proof.
  unfold fileExt.
  induction base as [|c base IH]; simpl.
  - unfold noDot in Hnd. rewrite Hnd.
    destruct e; [congruence | reflexivity].
  - assert (Hd : forallb (fun d => negb (isDot d)) (base ++ 46%N :: e) = false).
    { rewrite forallb_app. simpl. apply andb_false_r. }
    rewrite Hd, andb_false_r. exact IH.
Qed.

Lemma fileExt_last_part_witness :
  fileExt (lit "archive.tar" ++ 46%N :: lit "gz") = 46%N :: lit "gz".
Proof.
  apply (fileExt_last_part (lit "archive.tar") (lit "gz")).
  - discriminate.
  - reflexivity.
Defined.

(* ================================================================== *)
(** ** What sending and uploading leave alone *)
(* ================================================================== *)

Lemma updateById_ids (i : Z) (f : Message -> Message) (l : list Message) :
  (forall m, id (f m) = id m) -> map id (updateById i f l) = map id l.
Proof.
  intro Hf. unfold updateById. rewrite map_map. apply map_ext.
  intro m. destruct (Z.eqb (id m) i); [apply Hf | reflexivity].
Qed.

Lemma handleSendMessage_ids (c u : js_string) (n t : Z) (resp : Result unit)
  (st : State) :
  map id (messages (exec (handleSendMessage c u n t resp) st))
  = map id (messages st) ++ (if sendGuard c u then [] else [n]).
Proof.
  destruct (sendGuard c u) eqn:Hg.
  - unfold exec. rewrite (handleSendMessage_guarded _ _ _ _ _ _ Hg).
    simpl. rewrite app_nil_r. reflexivity.
  - destruct (handleSendMessage_run c u n t resp st Hg) as (Hm & _).
    rewrite Hm, updateById_ids by reflexivity.
    rewrite map_app. reflexivity.
Qed.

Lemma handleSendMessage_greetings (c u : js_string) (n t : Z)
  (resp : Result unit) (st : State) :
  greetings (exec (handleSendMessage c u n t resp) st) = greetings st.
Proof.
  unfold handleSendMessage.
  destruct (sendGuard c u); [|destruct resp]; run_handler; reflexivity.
Qed.

Lemma handleImageUpload_greetings (f : option File) (env : UploadEnv)
  (st : State) :
  greetings (exec (handleImageUpload f env) st) = greetings st.
Proof.
  unfold handleImageUpload, handleSendMessage.
  destruct f as [f|]; [|run_handler; auto].
  destruct (Z.ltb MAX_SIZE (size f)); [run_handler; auto|].
  destruct (signResp env) as [sig|e]; [|run_handler; auto].
  destruct (uploadResp env) as [[]|e]; [|run_handler; auto].
  destruct (sendGuard [] (url sig)); [run_handler; auto|].
  destruct (sendResp env); run_handler; auto.
Qed.

(** X21: sending and uploading, whatever their outcome, leave the unread
    count, the low-water-mark, [isFirstLoad] and the greetings as they
    were. *)
Theorem send_upload_frame (op : Op) (st : State) :
  match op with
  | OpSendMessage _ _ _ _ _ | OpImageUpload _ _ =>
      let st' := exec (runOp op) st in
      unreadCount st' = unreadCount st /\
      lastUnreadId st' = lastUnreadId st /\
      isFirstLoad st' = isFirstLoad st /\
      greetings st' = greetings st
  | _ => True
  end.
Proof.
  destruct op as [isInitial resp|i resp|c u n t resp|f env]; simpl runOp;
    try exact I; cbv zeta.
  - destruct (handleSendMessage_tracking c u n t resp st) as (A & B & C).
    repeat split; try assumption. apply handleSendMessage_greetings.
  - destruct (handleImageUpload_tracking f env st) as (A & B & C).
    repeat split; try assumption. apply handleImageUpload_greetings.
Qed.

(** X22: a send never removes or reorders a listed message: the ids of the
    list afterwards are the ids before, followed by the optimistic id when
    the send passed the guard. *)
Theorem handleSendMessage_keeps_ids (c u : js_string) (n t : Z)
  (resp : Result unit) (st : State) :
  map id (messages (exec (handleSendMessage c u n t resp) st))
  = map id (messages st) ++ (if sendGuard c u then [] else [n]) /\
  (List.length (messages st)
   <= List.length (messages (exec (handleSendMessage c u n t resp) st)))%nat.
Proof.
  pose proof (handleSendMessage_ids c u n t resp st) as H.
  split; [exact H|].
  apply (f_equal (@List.length Z)) in H.
  rewrite length_app, !length_map in H. lia.
Qed.

(* ================================================================== *)
(** ** Keywords *)
(* ================================================================== *)

Lemma splitNewline_nonempty (s : js_string) : splitNewline s <> [].
Proof.
  induction s as [|c s IH]; simpl; [discriminate|].
  destruct (isNewline c); [discriminate|].
  destruct (splitNewline s); [contradiction | discriminate].
Qed.

Lemma joinNewline_cons (p : js_string) (rest : list js_string) :
  rest <> [] -> joinNewline (p :: rest) = p ++ 10%N :: joinNewline rest.
Proof. destruct rest; [congruence | reflexivity]. Qed.

Lemma join_split (s : js_string) : joinNewline (splitNewline s) = s.
Proof.
  induction s as [|c s IH]; simpl; [reflexivity|].
  destruct (isNewline c) eqn:E.
  - rewrite joinNewline_cons by apply splitNewline_nonempty.
    unfold isNewline in E. apply N.eqb_eq in E. subst c.
    rewrite IH. reflexivity.
  - pose proof (splitNewline_nonempty s) as Hne.
    destruct (splitNewline s) as [|p [|q rest]]; [contradiction| |].
    + simpl in *. rewrite IH. reflexivity.
    + change (joinNewline ((c :: p) :: q :: rest))
        with (c :: (p ++ 10%N :: joinNewline (q :: rest))).
      change (joinNewline (p :: q :: rest))
        with (p ++ 10%N :: joinNewline (q :: rest)) in IH.
      rewrite IH. reflexivity.
Qed.

Lemma splitNewline_pieces (s : js_string) :
  Forall (fun p => hasNewline p = false) (splitNewline s).
Proof.
  induction s as [|c s IH]; simpl.
  - constructor; [reflexivity | constructor].
  - destruct (isNewline c) eqn:E.
    + constructor; [reflexivity | exact IH].
    + destruct (splitNewline s) as [|p rest]; simpl.
      * constructor; [simpl; rewrite E; reflexivity | constructor].
      * inversion IH as [|? ? Hp Hrest]; subst.
        constructor; [simpl; rewrite E; exact Hp | exact Hrest].
Qed.

Lemma splitNewline_length (s : js_string) :
  List.length (splitNewline s) = S (List.length (filter isNewline s)).
Proof.
  induction s as [|c s IH]; simpl; [reflexivity|].
  destruct (isNewline c); simpl; [rewrite IH; reflexivity|].
  pose proof (splitNewline_nonempty s) as Hne.
  destruct (splitNewline s); [contradiction | exact IH].
Qed.

(** X23: [split('\n')] loses nothing: joining the pieces with newlines
    gives the string back; no piece holds a newline; and there is one piece
    more than there are newlines, so an empty string gives one empty
    piece. *)
Theorem splitNewline_roundtrip (s : js_string) :
  joinNewline (splitNewline s) = s /\
  Forall (fun p => hasNewline p = false) (splitNewline s) /\
  List.length (splitNewline s) = S (List.length (filter isNewline s)).
Proof.
  split; [apply join_split|].
  split; [apply splitNewline_pieces | apply splitNewline_length].
Qed.

Lemma allKeywords_fold (data : list KeywordModel) (acc : list js_string) :
  fold_left (fun acc model => acc ++ splitNewline (key_world model)) data acc
  = acc ++ flat_map (fun model => splitNewline (key_world model)) data.
Proof.
  revert acc. induction data as [|m data IH]; intro acc; simpl.
  - symmetry. apply app_nil_r.
  - rewrite IH, <- app_assoc. reflexivity.
Qed.

Lemma joinNewline_app (l1 l2 : list js_string) :
  l1 <> [] -> l2 <> [] ->
  joinNewline (l1 ++ l2) = joinNewline l1 ++ 10%N :: joinNewline l2.
Proof.
  intros H1 H2. induction l1 as [|p l1 IH]; [contradiction|].
  destruct l1 as [|q l1].
  - simpl app. rewrite joinNewline_cons by exact H2. reflexivity.
  - change ((p :: q :: l1) ++ l2) with (p :: ((q :: l1) ++ l2)).
    rewrite joinNewline_cons by discriminate.
    rewrite IH by discriminate.
    rewrite (joinNewline_cons p (q :: l1)) by discriminate.
    rewrite <- app_assoc. reflexivity.
Qed.

(** X24: the keyword list built at start-up is the pieces of every model's
    [key_world], model after model; no keyword holds a newline, and joining
    all keywords with newlines gives the same text as joining the models'
    [key_world] strings, so empty lines become empty keywords and nothing is
    dropped. *)
Theorem allKeywords_flatten (data : list KeywordModel) :
  allKeywords data
    = flat_map (fun model => splitNewline (key_world model)) data /\
  Forall (fun k => hasNewline k = false) (allKeywords data) /\
  joinNewline (allKeywords data) = joinNewline (map key_world data).
Proof.
  assert (H : allKeywords data
              = flat_map (fun model => splitNewline (key_world model)) data)
    by (unfold allKeywords; rewrite allKeywords_fold; reflexivity).
  rewrite H. split; [reflexivity|]. split.
  - apply Forall_flat_map. apply Forall_forall.
    intros m _. apply splitNewline_pieces.
  - clear H. induction data as [|m data IH]; [reflexivity|].
    simpl flat_map. simpl map.
    destruct data as [|m' data].
    + simpl. rewrite app_nil_r. apply join_split.
    + rewrite joinNewline_app.
      * rewrite IH, join_split.
        rewrite (joinNewline_cons (key_world m)) by discriminate.
        reflexivity.
      * apply splitNewline_nonempty.
      * simpl. intro E. apply app_eq_nil in E as [E _].
        exact (splitNewline_nonempty _ E).
Qed.

(* ================================================================== *)
(** ** Start-up *)
(* ================================================================== *)

Lemma aexec_bind {A B} (m : AM A) (k : A -> AM B) (s : AppState) :
  aexec (abind m k) s = aexec (k (fst (fst (m s)))) (aexec m s).
Proof.
  unfold aexec, abind. destruct (m s) as [[a s1] t1]. simpl.
  destruct (k a s1) as [[b s2] t2]. reflexivity.
Qed.

Lemma atrace_bind {A B} (m : AM A) (k : A -> AM B) (s : AppState) :
  atrace (abind m k) s
  = atrace m s ++ atrace (k (fst (fst (m s)))) (aexec m s).
Proof.
  unfold atrace, aexec, abind. destruct (m s) as [[a s1] t1]. simpl.
  destruct (k a s1) as [[b s2] t2]. reflexivity.
Qed.

Lemma aexec_lift {A} (m : M A) (s : AppState) :
  aexec (lift m) s
  = mkApp (exec m (chat s)) (keywords s) (loading s) (showScrollButton s)
          (api s) (storedToken s).
Proof.
  unfold aexec, lift, exec. destruct (m (chat s)) as [[a c] t]. reflexivity.
Qed.

Lemma atrace_lift {A} (m : M A) (s : AppState) :
  atrace (lift m) s = map EvChat (trace m (chat s)).
Proof.
  unfold atrace, lift, trace. destruct (m (chat s)) as [[a c] t]. reflexivity.
Qed.

Lemma chatEvents_app (t1 t2 : list AppEvent) :
  chatEvents (t1 ++ t2) = chatEvents t1 ++ chatEvents t2.
Proof. unfold chatEvents. apply flat_map_app. Qed.

Lemma chatEvents_lift (t : list Event) : chatEvents (map EvChat t) = t.
Proof.
  induction t as [|e t IH]; simpl; [reflexivity | rewrite IH; reflexivity].
Qed.

Lemma appRequests_app (t1 t2 : list AppEvent) :
  appRequests (t1 ++ t2) = appRequests t1 ++ appRequests t2.
Proof. unfold appRequests. apply filter_app. Qed.

Lemma appRequests_lift (t : list Event) :
  appRequests (map EvChat t) = map (fun r => EvChat (EvRequest r)) (requests t).
Proof.
  induction t as [|e t IH]; simpl; [reflexivity|].
  destruct e; simpl; rewrite IH; reflexivity.
Qed.

(** Unfolds the start-up code down to the state it builds. *)
Ltac run_app :=
  rewrite ?aexec_bind, ?atrace_bind, ?aexec_lift, ?atrace_lift;
  cbn [aexec atrace abind aret agets amodify aemit
       setKeywords setLoading setShowScrollButton apiSetApiKey apiSetToken
       ChatAPI_setApiKey ChatAPI_setToken
       fst snd chat keywords loading showScrollButton api storedToken
       token apiKey app map].

Lemma loadMessages_toasts (isInitial : bool) (resp : Result History)
  (st : State) :
  toasts (trace (loadMessages isInitial resp) st) = [].
Proof.
  unfold loadMessages.
  destruct resp as [[l|g l]|e]; rewrite !trace_bind, !toasts_app;
    rewrite ?processMessages_trace; run_handler.
  - destruct (isFirstLoad st && _); destruct isInitial; reflexivity.
  - destruct (negb _ && isInitial); destruct (isFirstLoad st && _);
      destruct isInitial; reflexivity.
  - reflexivity.
Qed.

Lemma processMessages_toast_cell (firstLoad : bool) (msgs : list Message)
  (st : State) :
  toast (exec (processMessages firstLoad msgs) st) = toast st.
Proof.
  unfold processMessages. cbv zeta.
  destruct (firstLoad && _); run_handler; reflexivity.
Qed.

Lemma loadMessages_toast_cell (isInitial : bool) (resp : Result History)
  (st : State) :
  toast (exec (loadMessages isInitial resp) st) = toast st.
Proof.
  destruct resp as [[l|g l]|e]; [| |rewrite loadMessages_err_state; reflexivity];
    unfold loadMessages; rewrite !exec_bind.
  - destruct isInitial; run_handler; apply processMessages_toast_cell.
  - destruct (negb (Nat.eqb (List.length (orEmpty g)) 0) && isInitial);
      rewrite ?exec_bind; run_handler;
      destruct isInitial; run_handler;
      rewrite processMessages_toast_cell; reflexivity.
Qed.

(** X25: start-up always ends with [loading] false, whatever the three
    calls answer.  It raises a toast exactly when the login or the keyword
    request fails: one toast, with that error's message, and the toast cell
    then shows that message.  When neither fails, a failing history fetch
    included, no toast is raised and the toast cell is as before. *)
Theorem init_loading_toasts (k p t : js_string) (env : InitEnv)
  (s : AppState) :
  loading (aexec (init k p t env) s) = false /\
  toasts (chatEvents (atrace (init k p t env) s))
  = match startupError env with
    | Some e => [e]
    | None => []
    end /\
  toast (chat (aexec (init k p t env) s))
  = match startupError env with
    | Some e => mkToast true e
    | None => toast (chat s)
    end.
Proof.
  unfold init, startupError.
  destruct (loginOutcome env) as [d|e].
  - destruct (keywordOutcome env) as [[[|m ms]|]|e]; run_app;
      (split; [reflexivity|]);
      rewrite ?app_nil_r; cbn [chatEvents flat_map app];
      rewrite ?chatEvents_lift;
      fold (chatEvents (map EvChat
                          (trace (loadMessages true (historyOutcome env))
                                 (chat s))));
      rewrite ?chatEvents_lift, ?loadMessages_toasts;
      (split; [reflexivity|]);
      rewrite ?loadMessages_toast_cell; reflexivity.
  - run_app. repeat split.
Qed.

(** X26: when the login or the keyword request fails, start-up never asks
    for the history: the message list, the greetings, the unread cells and
    [isFirstLoad] stay as they were, and the toast cell shows the error. *)
Theorem init_failed (k p t e : js_string) (env : InitEnv) (s : AppState)
  (Herr : startupError env = Some e) :
  let s' := aexec (init k p t env) s in
  requests (chatEvents (atrace (init k p t env) s)) = [] /\
  messages (chat s') = messages (chat s) /\
  greetings (chat s') = greetings (chat s) /\
  unreadCount (chat s') = unreadCount (chat s) /\
  lastUnreadId (chat s') = lastUnreadId (chat s) /\
  isFirstLoad (chat s') = isFirstLoad (chat s) /\
  toast (chat s') = mkToast true e /\
  keywords s' = keywords s.
Proof.
  cbv zeta. unfold init, startupError in *.
  destruct (loginOutcome env) as [d|e1].
  - destruct (keywordOutcome env) as [kw|e2]; [discriminate|].
    inversion Herr; subst e2. run_app. run_handler. repeat split.
  - inversion Herr; subst e1. run_app. run_handler. repeat split.
Qed.

Lemma init_failed_witness :
  isFirstLoad (chat (aexec (init (lit "key") (lit "123") (lit "tmp") refusedEnv)
                       (initialApp None)))
  = true.
Proof.
  apply (init_failed (lit "key") (lit "123") (lit "tmp") (lit "bad token")
           refusedEnv (initialApp None) eq_refl).
Defined.

(** X27: after a login that succeeds, the client holds the token of the
    login answer and the API key of the component, the storage entry holds
    that token, so that a client constructed later starts with it, and every
    request a handler then issues through [request] carries it as
    [Authorization]; this holds whatever the keyword and history calls
    answer. *)
Theorem init_token (k p t : js_string) (env : InitEnv) (d : LoginData)
  (s : AppState)
  (Hlogin : loginOutcome env = Ok d) :
  let s' := aexec (init k p t env) s in
  token (api s') = login_token d /\
  apiKey (api s') = k /\
  storedToken s' = Some (login_token d) /\
  token (ChatAPI_new (storedToken s')) = login_token d /\
  (forall c u,
     objGet (lit "Authorization")
            (httpHeaders (fetchOf (api s') (ReqSendChat c u)))
     = Some (login_token d)).
Proof.
  cbv zeta. unfold init. rewrite Hlogin.
  assert (Hnew : token (ChatAPI_new (Some (login_token d))) = login_token d)
    by (simpl; destruct (login_token d); reflexivity).
  destruct (keywordOutcome env) as [[[|m ms]|]|e]; run_app;
    repeat split; exact Hnew.
Qed.

Lemma init_token_witness :
  token (api (aexec (init (lit "key") (lit "123") (lit "tmp") welcomeEnv)
                (initialApp None)))
  = lit "session-1".
Proof.
  apply (init_token (lit "key") (lit "123") (lit "tmp") welcomeEnv
           (mkLoginData (lit "session-1")) (initialApp None) eq_refl).
Defined.

(** X28: the requests of start-up, in order: the login; then, if it
    succeeded, the keyword request; then, if that succeeded too, the one
    history request, which carries [!isFirstLoad].  The keyword cell is
    written only when the keyword answer is a non-empty array. *)
Theorem init_requests (k p t : js_string) (env : InitEnv) (s : AppState) :
  appRequests (atrace (init k p t env) s)
  = EvLogin p t ::
    match loginOutcome env with
    | Err _ => []
    | Ok _ =>
        EvGetKeywords ::
        match keywordOutcome env with
        | Err _ => []
        | Ok _ =>
            [EvChat (EvRequest
                       (ReqChatHistory (negb (isFirstLoad (chat s)))))]
        end
    end /\
  keywords (aexec (init k p t env) s)
  = match loginOutcome env, keywordOutcome env with
    | Ok _, Ok (Some (m :: ms)) => allKeywords (m :: ms)
    | _, _ => keywords s
    end.
Proof.
  unfold init.
  destruct (loginOutcome env) as [d|e].
  - destruct (keywordOutcome env) as [[[|m ms]|]|e]; run_app;
      (split; [|reflexivity]);
      rewrite ?app_nil_r; cbn [appRequests filter];
      try (fold (appRequests
                   (map EvChat (trace (loadMessages true (historyOutcome env))
                                      (chat s))));
           rewrite appRequests_lift, loadMessages_requests);
      try reflexivity; run_handler; reflexivity.
  - run_app. split; [|reflexivity]. run_handler. reflexivity.
Qed.

(* ================================================================== *)
(** ** Scrolling *)
(* ================================================================== *)

(** Comparison of binary64 values, through its specification. *)
Lemma SFcompare_antisym (f1 f2 : SpecFloat.spec_float) :
  SpecFloat.SFcompare f2 f1 = option_map CompOpp (SpecFloat.SFcompare f1 f2).
Proof.
  destruct f1 as [s1|s1| |s1 m1 e1], f2 as [s2|s2| |s2 m2 e2]; simpl;
    try reflexivity;
    try (destruct s1; reflexivity); try (destruct s2; reflexivity);
    try (destruct s1, s2; reflexivity).
  destruct s1, s2; try reflexivity;
    rewrite (Z.compare_antisym e1 e2);
    destruct (e1 ?= e2); simpl; try reflexivity;
    rewrite (Pos.compare_cont_antisym m1 m2 Eq); reflexivity.
Qed.

Lemma float_ltb_asym (x y : PrimFloat.float) :
  PrimFloat.ltb x y = true -> PrimFloat.ltb y x = false.
Proof.
  rewrite !FloatAxioms.ltb_spec. unfold SpecFloat.SFltb.
  rewrite (SFcompare_antisym (FloatOps.Prim2SF x) (FloatOps.Prim2SF y)).
  destruct (SpecFloat.SFcompare (FloatOps.Prim2SF x) (FloatOps.Prim2SF y))
    as [[]|]; simpl; congruence.
Qed.

Lemma float_eqb_not_ltb (x y : PrimFloat.float) :
  PrimFloat.eqb x y = true ->
  PrimFloat.ltb x y = false /\ PrimFloat.ltb y x = false.
Proof.
  rewrite FloatAxioms.eqb_spec, !FloatAxioms.ltb_spec.
  unfold SpecFloat.SFeqb, SpecFloat.SFltb.
  rewrite (SFcompare_antisym (FloatOps.Prim2SF x) (FloatOps.Prim2SF y)).
  destruct (SpecFloat.SFcompare (FloatOps.Prim2SF x) (FloatOps.Prim2SF y))
    as [[]|]; simpl; intro H; try discriminate; split; reflexivity.
Qed.

Lemma markAsRead_phases (i : Z) (resp : Result unit) (st : State) :
  markAsRead i resp st
  = (started <- markAsReadStart i ;;
     if started then markAsReadResume resp else ret tt) st.
Proof.
  unfold markAsRead, markAsReadStart, markAsReadResume.
  destruct (Z.eqb i 0); [reflexivity|].
  destruct resp as [[]|e]; reflexivity.
Qed.

Lemma markAsReadStart_run (i : Z) (st : State) :
  markAsReadStart i st
  = (negb (Z.eqb i 0), st, if Z.eqb i 0 then [] else [EvRequest (ReqChatRead i)]).
Proof.
  unfold markAsReadStart. destruct (Z.eqb i 0); reflexivity.
Qed.

Lemma handleScrollStart_run (c : ScrollMetrics) (s : AppState) :
  let d := distanceFromBottom c in
  let last := lastUnreadId (chat s) in
  let reads := PrimFloat.ltb d 80%float && negb (Z.eqb last 0) in
  aexec (handleScrollStart (Some c)) s
    = mkApp (chat s) (keywords s) (loading s) (PrimFloat.ltb 80%float d)
            (api s) (storedToken s) /\
  requests (chatEvents (atrace (handleScrollStart (Some c)) s))
    = (if reads then [ReqChatRead last] else []).
Proof.
  cbv zeta. unfold handleScrollStart. cbv zeta.
  rewrite !aexec_bind, !atrace_bind. run_app.
  destruct (PrimFloat.ltb (distanceFromBottom c) 80%float
            && negb (Z.eqb (lastUnreadId (chat s)) 0)) eqn:E.
  - run_app. unfold exec, trace. rewrite markAsReadStart_run.
    apply andb_true_iff in E as [_ E]. apply negb_true_iff in E.
    rewrite E. cbn [fst snd map chatEvents flat_map app requests].
    destruct s; split; reflexivity.
  - run_app. split; reflexivity.
Qed.

Lemma handleScroll_run (c : ScrollMetrics) (resp : Result unit)
  (s : AppState) :
  let d := distanceFromBottom c in
  let last := lastUnreadId (chat s) in
  let reads := PrimFloat.ltb d 80%float && negb (Z.eqb last 0) in
  showScrollButton (aexec (handleScroll (Some c) resp) s)
    = PrimFloat.ltb 80%float d /\
  requests (chatEvents (atrace (handleScroll (Some c) resp) s))
    = (if reads then [ReqChatRead last] else []).
Proof.
  cbv zeta. unfold handleScroll. cbv zeta.
  rewrite !aexec_bind, !atrace_bind. run_app.
  destruct (PrimFloat.ltb (distanceFromBottom c) 80%float
            && negb (Z.eqb (lastUnreadId (chat s)) 0)) eqn:E.
  - run_app. rewrite chatEvents_lift, markAsRead_requests.
    apply andb_true_iff in E as [_ E]. apply negb_true_iff in E.
    rewrite E. split; reflexivity.
  - run_app. split; reflexivity.
Qed.

(** The readings whose exact distance is below 80 while the binary64
    subtraction gives 80: no confirmation is sent, the button is hidden. *)
Example scroll_rounded_to_eighty :
  PrimFloat.eqb (distanceFromBottom roundedToEighty) 80%float = true /\
  requests (chatEvents (atrace (handleScrollStart (Some roundedToEighty))
                          unreadApp)) = [] /\
  showScrollButton (aexec (handleScrollStart (Some roundedToEighty)) unreadApp)
  = false.
Proof. repeat split; reflexivity. Qed.

(** X29: what one scroll event does at once.  It never both shows the
    scroll button and sends a read confirmation: the button is shown when
    the distance from the bottom, as the binary64 subtraction gives it, is
    above 80; a confirmation is sent, for the pending low-water-mark, when
    that distance is below 80 and the low-water-mark is not zero; at a
    distance equal to 80 the button is hidden and nothing is sent.  The
    event changes no chat cell; without a container it does nothing. *)
Theorem handleScroll_cases (c : ScrollMetrics) (resp : Result unit)
  (s : AppState) :
  let d := distanceFromBottom c in
  let s' := aexec (handleScrollStart (Some c)) s in
  let sent := requests (chatEvents (atrace (handleScrollStart (Some c)) s)) in
  showScrollButton s' = PrimFloat.ltb 80%float d /\
  sent = (if PrimFloat.ltb d 80%float
             && negb (Z.eqb (lastUnreadId (chat s)) 0)
          then [ReqChatRead (lastUnreadId (chat s))] else []) /\
  chat s' = chat s /\
  (showScrollButton s' = true -> sent = []) /\
  (PrimFloat.eqb d 80%float = true -> showScrollButton s' = false /\ sent = []) /\
  handleScrollStart None s = (false, s, []) /\
  showScrollButton (aexec (handleScroll (Some c) resp) s) = showScrollButton s' /\
  requests (chatEvents (atrace (handleScroll (Some c) resp) s)) = sent.
Proof.
  cbv zeta.
  destruct (handleScrollStart_run c s) as (Hs & Hr).
  destruct (handleScroll_run c resp s) as (Hb' & Hr').
  rewrite Hs, Hr, Hb', Hr'. cbn [showScrollButton chat].
  repeat split.
  - intro H. rewrite (float_ltb_asym _ _ H). reflexivity.
  - apply (float_eqb_not_ltb _ _ H).
  - destruct (float_eqb_not_ltb _ _ H) as [-> _]. reflexivity.
Qed.

(** X30: a read confirmation is asked for again by every scroll event near
    the bottom until an answer clears the low-water-mark.  With the computed
    distance below 80 and a low-water-mark pending, the scroll event sends
    the confirmation and changes no chat cell, so the next such event sends
    it again for the same id.  When a success arrives, in whatever state, it
    sets the unread count and the low-water-mark to zero, and from that
    state no scroll event sends a confirmation.  When a failure arrives it
    leaves the chat cells as it finds them. *)
Theorem handleScroll_resends_until_answered (c c' : ScrollMetrics)
  (e : js_string) (s mid : AppState)
  (Hnear : PrimFloat.ltb (distanceFromBottom c) 80%float = true)
  (Hpending : lastUnreadId (chat s) <> 0) :
  let s1 := aexec (handleScrollStart (Some c)) s in
  let answered := aexec (lift (markAsReadResume (Ok tt))) mid in
  let refused := aexec (lift (markAsReadResume (Err e))) mid in
  requests (chatEvents (atrace (handleScrollStart (Some c)) s))
    = [ReqChatRead (lastUnreadId (chat s))] /\
  chat s1 = chat s /\
  requests (chatEvents (atrace (handleScrollStart (Some c)) s1))
    = [ReqChatRead (lastUnreadId (chat s))] /\
  unreadCount (chat answered) = 0%nat /\
  lastUnreadId (chat answered) = 0 /\
  requests (chatEvents (atrace (handleScrollStart (Some c')) answered)) = [] /\
  chat refused = chat mid.
Proof.
  cbv zeta.
  assert (Hreads : PrimFloat.ltb (distanceFromBottom c) 80%float
                   && negb (Z.eqb (lastUnreadId (chat s)) 0) = true).
  { rewrite Hnear. apply negb_true_iff, Z.eqb_neq, Hpending. }
  destruct (handleScrollStart_run c s) as (Hs & Hr).
  rewrite Hr, Hreads.
  split; [reflexivity|].
  split; [rewrite Hs; reflexivity|].
  split.
  - destruct (handleScrollStart_run c (aexec (handleScrollStart (Some c)) s))
      as (_ & Hr1).
    rewrite Hr1, Hs. cbn [chat]. rewrite Hreads. reflexivity.
  - rewrite !aexec_lift. cbn [chat].
    split; [reflexivity|]. split; [reflexivity|]. split; [|reflexivity].
    match goal with
    | |- context [atrace (handleScrollStart (Some c')) ?a] =>
        destruct (handleScrollStart_run c' a) as (_ & Hr2)
    end.
    rewrite Hr2. cbn [chat lastUnreadId exec fst snd markAsReadResume].
    unfold exec. simpl. rewrite andb_false_r. reflexivity.
Qed.

Lemma handleScroll_resends_until_answered_witness :
  requests (chatEvents (atrace (handleScrollStart (Some nearBottom)) unreadApp))
    = [ReqChatRead 5] /\
  unreadCount (chat (aexec (lift (markAsReadResume (Ok tt))) unreadApp))
    = 0%nat.
Proof.
  assert (Hn : PrimFloat.ltb (distanceFromBottom nearBottom) 80%float = true)
    by reflexivity.
  assert (Hp : lastUnreadId (chat unreadApp) <> 0) by (simpl; discriminate).
  pose proof (handleScroll_resends_until_answered nearBottom nearBottom []
                unreadApp unreadApp Hn Hp) as (H1 & _ & _ & H4 & _).
  split; [exact H1 | exact H4].
Defined.
